(** * Timesheet readers (docs/timesheet.py): model and verification

    The module reads animation timesheets from three file formats (the binary
    STS container and the JSON based TDTS and XDTS documents) into one model:
    a [Timesheet] of named [Layer]s, each a list of [Frame] change points.

    The development embeds the Python code shallowly:
    - an [int] is a [Z] (Python integers are unbounded);
    - a [str] is a [string], each character one code point below 256; text
      that comes out of the UTF-8 codec is a list of code points;
    - [bytes] is a [list byte];
    - a raised exception is the [Raise] case of [result];
    - code that reads a file, prints tracebacks or owns a local variable that
      may still be unbound runs in the state-and-exception monad [M]. *)

From Stdlib Require Import ZArith NArith List String Ascii Strings.Byte Bool Lia.
Import ListNotations.

Open Scope string_scope.
Open Scope list_scope.
Open Scope Z_scope.

(** ** Exceptions and results *)

(** The exceptions the module can raise, by class.  [Exception] carries the
    message the code builds. *)
Inductive exn : Type :=
| IndexError
| KeyError (key : string)
| ValueError (literal : string)
| UnboundLocalError (variable : string)
| UnicodeDecodeError (codec : string)
| Exception (msg : string).

Inductive result (A : Type) : Type :=
| Ok (a : A)
| Raise (e : exn).

Arguments Ok {A} a.
Arguments Raise {A} e.

Definition rbind {A B : Type} (r : result A) (k : A -> result B) : result B :=
  match r with
  | Ok a => k a
  | Raise e => Raise e
  end.

Notation "'let?' x ':=' r 'in' k" := (rbind r (fun x => k))
  (at level 10, x name, r at level 100, k at level 200).

(** State and exceptions.  The state survives a raise: what was read from a
    file or printed stays read or printed. *)
Definition M (S A : Type) : Type := S -> result A * S.

Definition ret {S A : Type} (a : A) : M S A := fun s => (Ok a, s).

Definition raise {S A : Type} (e : exn) : M S A := fun s => (Raise e, s).

Definition lift {S A : Type} (r : result A) : M S A := fun s => (r, s).

Definition bind {S A B : Type} (m : M S A) (k : A -> M S B) : M S B :=
  fun s =>
    match m s with
    | (Ok a, s') => k a s'
    | (Raise e, s') => (Raise e, s')
    end.

Notation "x <- m ;; k" := (bind m (fun x => k))
  (at level 61, m at next level, right associativity).
Notation "m ;;; k" := (bind m (fun _ => k))
  (at level 61, right associativity).

(** [for x in xs: acc = body x acc].  A [continue] in the body is a body that
    returns [acc] unchanged. *)
Fixpoint for_each {S A B : Type} (body : A -> B -> M S B) (xs : list A) (acc : B)
  : M S B :=
  match xs with
  | [] => ret acc
  | x :: xs' => acc' <- body x acc ;; for_each body xs' acc'
  end.

(** [range(n)] *)
Definition range (n : nat) : list Z := map Z.of_nat (seq 0 n).

(** ** Lists as Python uses them *)

(** [l[i]]: a negative index counts from the end; out of range raises. *)
Definition getitem {A : Type} (l : list A) (i : Z) : result A :=
  let n := Z.of_nat (List.length l) in
  let j := if i <? 0 then i + n else i in
  if (0 <=? j) && (j <? n) then
    match nth_error l (Z.to_nat j) with
    | Some a => Ok a
    | None => Raise IndexError
    end
  else Raise IndexError.

(** [l.pop(i)], the list that is left. *)
Definition pop {A : Type} (l : list A) (i : Z) : result (list A) :=
  let n := Z.of_nat (List.length l) in
  let j := if i <? 0 then i + n else i in
  if (0 <=? j) && (j <? n) then
    Ok (firstn (Z.to_nat j) l ++ skipn (S (Z.to_nat j)) l)
  else Raise IndexError.

(** ** The model: Frame, Layer, Timesheet *)

Record Frame : Type := mkFrame { frame : Z; cell : Z }.

Record Layer : Type := mkLayer { name : string; frames : list Frame }.

Record Timesheet : Type := mkTimesheet {
  path : string;
  sheet_name : string;
  frame_count : Z;
  layers : list Layer
}.

(** *** Timesheet.__init__ *)

(** [for i in range(len(frames) - 1, 0, -1)]: [compress_from i frames] runs
    the iterations [i], [i - 1], ..., [1]. *)
Fixpoint compress_from (i : nat) (frames : list Frame) : result (list Frame) :=
  match i with
  | O => Ok frames
  | S j =>
      let? fi := getitem frames (Z.of_nat i) in
      let? fj := getitem frames (Z.of_nat i - 1) in
      let? frames' :=
        (if cell fi =? cell fj then pop frames (Z.of_nat i) else Ok frames) in
      compress_from j frames'
  end.

(** The body of [for layer in layers], on the layer's list of frames.  The
    list is changed in place; the readers build one list per layer, so no two
    layers share one. *)
Definition normalize (frames : list Frame) : result (list Frame) :=
  let? f0 := getitem frames 0 in
  let frames := if negb (frame f0 =? 0) then mkFrame 0 0 :: frames else frames in
  compress_from (List.length frames - 1) frames.

Fixpoint normalize_layers (layers : list Layer) : result (list Layer) :=
  match layers with
  | [] => Ok []
  | layer :: rest =>
      let? frames' := normalize (frames layer) in
      let? rest' := normalize_layers rest in
      Ok (mkLayer (name layer) frames' :: rest')
  end.

Definition Timesheet_init (path name : string) (frame_count : Z) (layers : list Layer)
  : result Timesheet :=
  let? layers' := normalize_layers layers in
  Ok (mkTimesheet path name frame_count layers').

(** ** Built-ins the readers call *)

Definition code (c : ascii) : N := N_of_ascii c.

(** A decimal digit.  Among the code points below 256 the decimal digits are
    the ASCII ones. *)
Definition is_digit (c : ascii) : bool := ((48 <=? code c) && (code c <=? 57))%N.

Definition digit_value (c : ascii) : Z := Z.of_N (code c) - 48.

(** *** int(str) *)

(** The white space [int] skips at both ends: tab, line feed, vertical tab,
    form feed, carriage return, space, and below 256 the next-line and
    no-break-space characters. *)
Definition int_space (c : ascii) : bool :=
  (((9 <=? code c) && (code c <=? 13)) || (code c =? 32)
   || (code c =? 133) || (code c =? 160))%N.

Fixpoint lstrip (l : list ascii) : list ascii :=
  match l with
  | c :: r => if int_space c then lstrip r else l
  | [] => []
  end.

Definition strip (l : list ascii) : list ascii := rev (lstrip (rev (lstrip l))).

(** Digits, with single underscores allowed between two digits.
    [after_digit] says the character before was a digit. *)
Fixpoint int_digits (acc : Z) (after_digit : bool) (l : list ascii) : option Z :=
  match l with
  | [] => if after_digit then Some acc else None
  | c :: r =>
      if is_digit c then int_digits (10 * acc + digit_value c) true r
      else if (code c =? 95)%N && after_digit then int_digits acc false r
      else None
  end.

(** The limit [int] puts on the digits of a decimal literal
    ([sys.int_info.default_max_str_digits], the default of CPython 3.11 and
    of the later releases of 3.7 to 3.10): a literal with more digits is
    refused with ValueError. *)
Definition int_max_str_digits : Z := 4300.

(** [int(s)] for a string, base 10: [None] is the ValueError.  The digits
    are counted after the white space and the sign are taken off, and
    underscores do not count. *)
Definition py_int (s : string) : option Z :=
  match strip (list_ascii_of_string s) with
  | [] => None
  | c :: r =>
      let literal := if ((code c =? 45) || (code c =? 43))%N then r else c :: r in
      if int_max_str_digits <? Z.of_nat (List.length (filter is_digit literal)) then None
      else if (code c =? 45)%N then option_map Z.opp (int_digits 0 false r)
      else if (code c =? 43)%N then int_digits 0 false r
      else int_digits 0 false (c :: r)
  end.

(** *** re.compile(r"\d+$").search *)

(** [$] without the MULTILINE flag: the end of the string, or just before a
    line feed that ends the string. *)
Definition at_dollar (s : string) : bool :=
  match s with
  | EmptyString => true
  | String c EmptyString => (code c =? 10)%N
  | _ => false
  end.

(** The pattern tried at the start of [s]: [\d+] is greedy, and gives digits
    back until [$] holds. *)
Fixpoint match_digits_dollar (s : string) : option string :=
  match s with
  | EmptyString => None
  | String c rest =>
      if is_digit c then
        match match_digits_dollar rest with
        | Some m => Some (String c m)
        | None => if at_dollar rest then Some (String c EmptyString) else None
        end
      else None
  end.

(** [search]: the first position, from the left, where the pattern matches;
    the result is [match.group()]. *)
Fixpoint re_num_search (s : string) : option string :=
  match match_digits_dollar s with
  | Some m => Some m
  | None =>
      match s with
      | EmptyString => None
      | String _ rest => re_num_search rest
      end
  end.

(** *** bytes.decode() (UTF-8, strict) and int.from_bytes *)

Definition byte_val (b : byte) : Z := Z.of_N (Byte.to_N b).

Definition in_range (lo hi : Z) (b : byte) : bool :=
  (lo <=? byte_val b) && (byte_val b <=? hi).

Definition continuation (b : byte) : bool := in_range 128 191 b.

(** The well-formed sequences of UTF-8: no overlong form, no surrogate,
    nothing above U+10FFFF.  [None] is the UnicodeDecodeError. *)
Fixpoint utf8_decode (bs : list byte) : option (list Z) :=
  match bs with
  | [] => Some []
  | b1 :: r1 =>
      if in_range 0 127 b1 then
        option_map (cons (byte_val b1)) (utf8_decode r1)
      else if in_range 194 223 b1 then
        match r1 with
        | b2 :: r2 =>
            if continuation b2 then
              option_map (cons ((byte_val b1 - 192) * 64 + (byte_val b2 - 128)))
                         (utf8_decode r2)
            else None
        | _ => None
        end
      else if in_range 224 239 b1 then
        match r1 with
        | b2 :: b3 :: r3 =>
            if (if byte_val b1 =? 224 then in_range 160 191 b2
                else if byte_val b1 =? 237 then in_range 128 159 b2
                else continuation b2) && continuation b3 then
              option_map (cons ((byte_val b1 - 224) * 4096 + (byte_val b2 - 128) * 64
                                + (byte_val b3 - 128)))
                         (utf8_decode r3)
            else None
        | _ => None
        end
      else if in_range 240 244 b1 then
        match r1 with
        | b2 :: b3 :: b4 :: r4 =>
            if (if byte_val b1 =? 240 then in_range 144 191 b2
                else if byte_val b1 =? 244 then in_range 128 143 b2
                else continuation b2) && continuation b3 && continuation b4 then
              option_map (cons ((byte_val b1 - 240) * 262144 + (byte_val b2 - 128) * 4096
                                + (byte_val b3 - 128) * 64 + (byte_val b4 - 128)))
                         (utf8_decode r4)
            else None
        | _ => None
        end
      else None
  end.

(** The code points of a string literal. *)
Definition text_of (s : string) : list Z :=
  map (fun c => Z.of_N (code c)) (list_ascii_of_string s).

Definition text_eqb (a b : list Z) : bool :=
  if list_eq_dec Z.eq_dec a b then true else false.

(** [int.from_bytes(bs, byteorder='little', signed=False)]; the empty
    sequence is 0. *)
Fixpoint int_from_bytes (bs : list byte) : Z :=
  match bs with
  | [] => 0
  | b :: r => byte_val b + 256 * int_from_bytes r
  end.

(** *** os.path.basename (and Path.name) *)

(** What follows the last slash; [cur] is what follows the last slash seen
    so far. *)
Fixpoint after_last_slash (p cur : string) : string :=
  match p with
  | EmptyString => cur
  | String c r => if (code c =? 47)%N then after_last_slash r r
                  else after_last_slash r cur
  end.

Definition basename (p : string) : string := after_last_slash p p.

(** ** The JSON documents, as [json.loads] returns them *)

(** The records hold the keys the readers index, at the types the readers
    use them at.  A document that lacks one of these keys (other than
    ["fields"]) or holds a value of another type makes the code raise
    KeyError or TypeError; such documents have no counterpart here. *)

(** One element of [track["frames"]]: [frame["frame"]] and the value string
    [frame["data"][0]["values"][0]]. *)
Record FrameEntry : Type := mkEntry { entry_frame : Z; entry_value : string }.

Record Track : Type := mkTrack { trackNo : Z; track_frames : list FrameEntry }.

Record Field : Type := mkField { fieldId : Z; tracks : list Track }.

Record TimeTableHeader : Type := mkHeader { header_fieldId : Z; names : list string }.

(** A table may lack the key ["fields"]. *)
Record TimeTable : Type := mkTable {
  table_name : string;
  duration : Z;
  fields : option (list Field);
  timeTableHeaders : list TimeTableHeader
}.

(** A TDTS sheet: [timeSheet["header"]["cut"]] and its tables. *)
Record TimeSheet : Type := mkSheet { cut : string; timeTables : list TimeTable }.

(** [timeTable["fields"]] *)
Definition table_fields {S : Type} (timeTable : TimeTable) : M S (list Field) :=
  match fields timeTable with
  | Some fs => ret fs
  | None => raise (KeyError "fields")
  end.

(** The [for ... else] search over the headers. *)
Definition header_names (fid : Z) (headers : list TimeTableHeader) : option (list string) :=
  option_map names (find (fun h => header_fieldId h =? fid) headers).

(** ** TDTS *)

(** The state is what [traceback.print_exc] has printed: the exceptions, in
    order. *)
Definition print_exc (e : exn) : M (list exn) unit :=
  fun err => (Ok tt, err ++ [e]).

(** The body of [for frame in track["frames"]]. *)
Definition TDTS_entry (fe : FrameEntry) (frames : list Frame) : M (list exn) (list Frame) :=
  let value := entry_value fe in
  if (value =? "SYMBOL_NULL_CELL")%string then
    ret (frames ++ [mkFrame (entry_frame fe) 0])
  else
    match py_int value with
    | Some c => ret (frames ++ [mkFrame (entry_frame fe) c])
    | None => print_exc (ValueError value) ;;; ret frames
    end.

(** The body of [for track in tracks]. *)
Definition TDTS_track (names : list string) (track : Track) (layers : list Layer)
  : M (list exn) (list Layer) :=
  name <- lift (getitem names (trackNo track)) ;;
  frames <- for_each TDTS_entry (track_frames track) [] ;;
  ret (layers ++ [mkLayer name frames]).

Definition TDTS_read (timeTable : TimeTable) : M (list exn) (list Layer * Z) :=
  let frame_count := duration timeTable in
  fs <- table_fields timeTable ;;
  let tracks := option_map tracks (find (fun f => fieldId f =? 4) fs) in
  let names := header_names 4 (timeTableHeaders timeTable) in
  layers <- match tracks, names with
            | Some tracks, Some names => for_each (TDTS_track names) tracks []
            | _, _ => ret []
            end ;;
  ret (layers, frame_count).

Definition TDTS_init (path timeSheet_name : string) (timeTable : TimeTable)
  : M (list exn) Timesheet :=
  let name := (basename path ++ "->" ++ timeSheet_name ++ "->" ++ table_name timeTable)%string in
  r <- TDTS_read timeTable ;;
  lift (Timesheet_init path name (snd r) (fst r)).

(** ** XDTS *)

(** What a call of [XDTS.__read] can change: its local variable [cell], which
    may still be unbound, and the tracebacks printed. *)
Record locals : Type := mkLocals { cell_var : option Z; stderr : list exn }.

Definition set_cell (c : Z) : M locals unit :=
  fun st => (Ok tt, mkLocals (Some c) (stderr st)).

(** Reading [cell]. *)
Definition get_cell : M locals Z :=
  fun st =>
    match cell_var st with
    | Some c => (Ok c, st)
    | None => (Raise (UnboundLocalError "cell"), st)
    end.

Definition print_exc_local (e : exn) : M locals unit :=
  fun st => (Ok tt, mkLocals (cell_var st) (stderr st ++ [e])).

Definition tick_or_hyphen (value : string) : bool :=
  existsb (String.eqb value) ["SYMBOL_TICK_1"; "SYMBOL_TICK_2"; "SYMBOL_HYPHEN"].

(** [frames.append(Frame(frame["frame"], cell))] *)
Definition append_frame (fe : FrameEntry) (frames : list Frame) : M locals (list Frame) :=
  c <- get_cell ;;
  ret (frames ++ [mkFrame (entry_frame fe) c]).

(** The body of [for frame in track["frames"]]. *)
Definition XDTS_entry (fe : FrameEntry) (frames : list Frame) : M locals (list Frame) :=
  let value := entry_value fe in
  if (value =? "SYMBOL_NULL_CELL")%string then
    set_cell 0 ;;; append_frame fe frames
  else if tick_or_hyphen value then
    ret frames
  else
    match re_num_search value with
    | None =>
        print_exc_local (Exception ("NotNumberError:" ++ value)%string) ;;;
        append_frame fe frames
    | Some run =>
        match py_int run with
        | Some c => set_cell c ;;; append_frame fe frames
        | None => raise (ValueError run)
        end
    end.

Definition XDTS_track (names : list string) (track : Track) (layers : list Layer)
  : M locals (list Layer) :=
  name <- lift (getitem names (trackNo track)) ;;
  frames <- for_each XDTS_entry (track_frames track) [] ;;
  ret (layers ++ [mkLayer name frames]).

Definition XDTS_read (timeTable : TimeTable) : M locals (list Layer * Z) :=
  let frame_count := duration timeTable in
  fs <- table_fields timeTable ;;
  field <- lift (getitem fs 0) ;;
  let names := header_names (fieldId field) (timeTableHeaders timeTable) in
  layers <- match names with
            | Some names => for_each (XDTS_track names) (tracks field) []
            | None => ret []
            end ;;
  ret (layers, frame_count).

(** A call: the locals start unbound, the printed tracebacks stay. *)
Definition call {A : Type} (body : M locals A) : M (list exn) A :=
  fun err =>
    let (r, st) := body (mkLocals None err) in (r, stderr st).

Definition XDTS_init (path : string) (timeTable : TimeTable) : M (list exn) Timesheet :=
  let name := (basename path ++ "->" ++ table_name timeTable)%string in
  r <- call (XDTS_read timeTable) ;;
  lift (Timesheet_init path name (snd r) (fst r)).

(** ** STS *)

Section STS.

(** [bytes.decode("shift-jis")]: [None] is the UnicodeDecodeError.  The code
    page is the interpreter's, not the repository's. *)
Variable shift_jis : list byte -> option string.

(** The state is what is left of the file.  [f.read(n)] returns what there
    is, at most [n] bytes. *)
Definition read (n : nat) : M (list byte) (list byte) :=
  fun s => (Ok (firstn n s), skipn n s).

(** [f.int(length)] *)
Definition read_int (length : nat) : M (list byte) Z :=
  bs <- read length ;; ret (int_from_bytes bs).

(** The body of [for j in range(frame_count)]. *)
Definition STS_cell (j : Z) (frames : list Frame) : M (list byte) (list Frame) :=
  c <- read_int 2 ;;
  if Z.of_nat (List.length frames) =? 0 then ret (frames ++ [mkFrame j c])
  else
    last <- lift (getitem frames (-1)) ;;
    if negb (cell last =? c) then ret (frames ++ [mkFrame j c]) else ret frames.

(** The body of the first [for i in range(layer_count)]. *)
Definition STS_grid (frame_count : Z) (i : Z) (frames_list : list (list Frame))
  : M (list byte) (list (list Frame)) :=
  frames <- for_each STS_cell (range (Z.to_nat frame_count)) [] ;;
  ret (frames_list ++ [frames]).

(** The body of the second [for i in range(layer_count)]. *)
Definition STS_layer (frames_list : list (list Frame)) (i : Z) (layers : list Layer)
  : M (list byte) (list Layer) :=
  name_length <- read_int 1 ;;
  name_bytes <- read (Z.to_nat name_length) ;;
  match shift_jis name_bytes with
  | None => raise (UnicodeDecodeError "shift-jis")
  | Some name =>
      frames <- lift (getitem frames_list i) ;;
      ret (layers ++ [mkLayer name frames])
  end.

Definition STS_init (path : string) : M (list byte) Timesheet :=
  read 1 ;;;
  magic <- read 17 ;;
  match utf8_decode magic with
  | None => raise (UnicodeDecodeError "utf-8")
  | Some text =>
      if negb (text_eqb text (text_of "ShiraheiTimeSheet")) then
        raise (Exception "NotSTSFileFormatError")
      else
        layer_count <- read_int 1 ;;
        frame_count <- read_int 2 ;;
        read 2 ;;;
        frames_list <- for_each (STS_grid frame_count) (range (Z.to_nat layer_count)) [] ;;
        layers <- for_each (STS_layer frames_list) (range (Z.to_nat layer_count)) [] ;;
        let name := basename path in
        lift (Timesheet_init path name frame_count layers)
  end.

End STS.

(** ** load, branch by branch *)

(** [".sts"]: the whole result is the one Timesheet, or the exception. *)
Definition load_sts (shift_jis : list byte -> option string) (file_path : string)
  (content : list byte) : result (list Timesheet) :=
  let? ts := fst (STS_init shift_jis file_path content) in Ok [ts].

(** [".tdts"], on the parsed document [d["timeSheets"]]. *)
Definition load_tdts (file_path : string) (timeSheets : list TimeSheet)
  : M (list exn) (list Timesheet) :=
  for_each
    (fun timeSheet dst =>
       for_each
         (fun timeTable dst =>
            match fields timeTable with
            | Some _ =>
                tdts <- TDTS_init file_path (cut timeSheet) timeTable ;;
                ret (dst ++ [tdts])
            | None => ret dst
            end)
         (timeTables timeSheet) dst)
    timeSheets [].

(** [".xdts"], on the parsed document [d["timeTables"]]. *)
Definition load_xdts (file_path : string) (timeTables : list TimeTable)
  : M (list exn) (list Timesheet) :=
  for_each
    (fun timeTable dst => xdts <- XDTS_init file_path timeTable ;; ret (dst ++ [xdts]))
    timeTables [].

(** ** Specifications *)

(** Normalization as the design states it.  Step (a): if the sequence is
    empty or its first frame index is not zero, put [(0, 0)] in front. *)
Definition with_frame_zero (raw : list Frame) : list Frame :=
  match raw with
  | [] => [mkFrame 0 0]
  | f :: _ => if frame f =? 0 then raw else mkFrame 0 0 :: raw
  end.

(** Step (b): every entry whose cell equals the cell of the entry before it
    is removed.  [prev] is the cell of the entry before. *)
Fixpoint drop_repeats (prev : Z) (l : list Frame) : list Frame :=
  match l with
  | [] => []
  | f :: r => if cell f =? prev then drop_repeats (cell f) r
              else f :: drop_repeats (cell f) r
  end.

Definition compress (l : list Frame) : list Frame :=
  match l with
  | [] => []
  | f :: r => f :: drop_repeats (cell f) r
  end.

Definition spec_normalize (raw : list Frame) : list Frame :=
  compress (with_frame_zero raw).

(** No two neighbours have the same cell. *)
Fixpoint no_adjacent_duplicates (l : list Frame) : Prop :=
  match l with
  | f :: r =>
      match r with
      | g :: _ => cell f <> cell g
      | [] => True
      end /\ no_adjacent_duplicates r
  | [] => True
  end.

(** [frames[0].frame == 0] *)
Definition starts_at_zero (l : list Frame) : Prop :=
  exists f r, l = f :: r /\ frame f = 0.

(** What a layer of a constructed Timesheet is: the normal form of a raw
    sequence that was not empty. *)
Definition normal_layer (l : Layer) : Prop :=
  exists raw, raw <> [] /\ frames l = spec_normalize raw.

(** The Timesheets the three readers construct. *)
Inductive constructed : Timesheet -> Prop :=
| constructed_STS shift_jis path content ts rest :
    STS_init shift_jis path content = (Ok ts, rest) -> constructed ts
| constructed_TDTS path timeSheet_name timeTable err ts err' :
    TDTS_init path timeSheet_name timeTable err = (Ok ts, err') -> constructed ts
| constructed_XDTS path timeTable err ts err' :
    XDTS_init path timeTable err = (Ok ts, err') -> constructed ts.

(** ** Sample inputs *)

(** The ASCII half of the Shift-JIS code page: a byte below 128 is the
    character with that code.  It serves to run the STS reader on files
    whose layer names are ASCII; other names are left undecoded here. *)
Definition shift_jis_ascii (bs : list byte) : option string :=
  if forallb (fun b => byte_val b <? 128) bs
  then Some (string_of_list_ascii (map ascii_of_byte bs))
  else None.

(** The bytes of ["ShiraheiTimeSheet"]. *)
Definition magic_bytes : list byte :=
  [x53; x68; x69; x72; x61; x68; x65; x69; x54; x69; x6d; x65; x53; x68; x65; x65; x74].

(** An STS file with one layer and no frame. *)
Definition sts_no_frames : list byte :=
  x00 :: magic_bytes ++ [x01; x00; x00; x00; x00; x01; x41].

(** An XDTS table whose only track holds but a hyphen. *)
Definition xdts_hyphen_only : TimeTable :=
  mkTable "T" 24 (Some [mkField 0 [mkTrack 0 [mkEntry 0 "SYMBOL_HYPHEN"]]])
          [mkHeader 0 ["A"]].

(** A TDTS table whose only track holds but a value that is no number. *)
Definition tdts_abc_only : TimeTable :=
  mkTable "T" 24 (Some [mkField 4 [mkTrack 0 [mkEntry 5 "abc"]]])
          [mkHeader 4 ["A"]].

(** The synthetic STS file of the design's round-trip test: a reserved byte,
    the magic, [layer_count = 1], [frame_count = 4], two reserved bytes, the
    grid 5, 5, 7, 7 and one name record. *)
Definition sts_sample (name_length : byte) (name_bytes : list byte) : list byte :=
  x00 :: magic_bytes
      ++ [x01; x04; x00; x00; x00; x05; x00; x05; x00; x07; x00; x07; x00]
      ++ name_length :: name_bytes.

(** That file cut in the middle of the second grid value. *)
Definition sts_truncated : list byte :=
  x00 :: magic_bytes ++ [x01; x04; x00; x00; x00; x05; x00; x05].

(** A file that ends with the magic. *)
Definition sts_header_only : list byte := x00 :: magic_bytes.

(** Seventeen bytes that are not UTF-8 where the magic should be. *)
Definition sts_not_utf8 : list byte :=
  x00 :: [xff; xff; xff; xff; xff; xff; xff; xff; xff; xff; xff; xff; xff; xff; xff; xff; xff]
      ++ [x01; x04; x00; x00; x00; x05; x00; x05; x00; x07; x00; x07; x00; x01; x41].

(** Seventeen bytes of other text where the magic should be. *)
Definition sts_other_text : list byte :=
  x00 :: [x53; x68; x69; x72; x61; x68; x65; x69; x54; x69; x6d; x65; x53; x68; x65; x65; x73]
      ++ [x01; x04; x00; x00; x00; x05; x00; x05; x00; x07; x00; x07; x00; x01; x41].

(** How the reader fails when the magic is not there. *)
Definition magic_failure (chunk : list byte) : exn :=
  match utf8_decode chunk with
  | Some _ => Exception "NotSTSFileFormatError"
  | None => UnicodeDecodeError "utf-8"
  end.

(** ** What the pattern matches, in words *)

Fixpoint all_digits (s : string) : bool :=
  match s with
  | EmptyString => true
  | String c r => is_digit c && all_digits r
  end.

(** The run of digits at the end of [s]: its longest suffix made of digits. *)
Fixpoint digit_suffix (s : string) : string :=
  match s with
  | EmptyString => EmptyString
  | String c r => if all_digits s then s else digit_suffix r
  end.

(** [s] without the line feed that ends it, if one does. *)
Fixpoint chomp (s : string) : string :=
  match s with
  | EmptyString => EmptyString
  | String c r =>
      match r with
      | EmptyString => if (code c =? 10)%N then EmptyString else s
      | String _ _ => String c (chomp r)
      end
  end.

Definition nonempty (s : string) : bool :=
  match s with
  | EmptyString => false
  | String _ _ => true
  end.

(** ** Specifications of the value mappings *)

(** TDTS, as the design states it: the null-cell symbol is cell 0, any other
    value is read as an integer, and a value that is no integer gives no
    entry. *)
Definition TDTS_raw_entry (fe : FrameEntry) : list Frame :=
  if (entry_value fe =? "SYMBOL_NULL_CELL")%string then [mkFrame (entry_frame fe) 0]
  else
    match py_int (entry_value fe) with
    | Some c => [mkFrame (entry_frame fe) c]
    | None => []
    end.

(** The diagnostic of an entry that is dropped. *)
Definition TDTS_diagnostic (fe : FrameEntry) : list exn :=
  if (entry_value fe =? "SYMBOL_NULL_CELL")%string then []
  else
    match py_int (entry_value fe) with
    | Some _ => []
    | None => [ValueError (entry_value fe)]
    end.

(** A run of decimal digits read as a number. *)
Definition decimal (run : string) : Z :=
  fold_left (fun acc c => 10 * acc + digit_value c) (list_ascii_of_string run) 0.

(** XDTS: the values that give no entry. *)
Definition drop_symbol (value : string) : Prop :=
  value = "SYMBOL_TICK_1" \/ value = "SYMBOL_TICK_2" \/ value = "SYMBOL_HYPHEN".

(** XDTS: a value that is no symbol and has no run of digits at its end,
    where a line feed that ends the value is not counted (the NotNumberError
    case). *)
Definition not_number (value : string) : Prop :=
  value <> "SYMBOL_NULL_CELL" /\ ~ drop_symbol value /\
  digit_suffix (chomp value) = EmptyString.

(** XDTS: the cell a value computes, when it computes one. *)
Definition computed_cell (value : string) : option Z :=
  if (value =? "SYMBOL_NULL_CELL")%string then Some 0
  else if tick_or_hyphen value then None
  else option_map decimal (re_num_search value).

(** The cell most recently computed after the entries [entries], [prev]
    being what was computed before them in the same call. *)
Definition last_computed (prev : option Z) (entries : list FrameEntry) : option Z :=
  fold_left
    (fun acc fe =>
       match computed_cell (entry_value fe) with
       | Some c => Some c
       | None => acc
       end)
    entries prev.

(** ** Sample documents *)

(** The track of the design's TDTS test: the null-cell symbol at frame 3, a
    value that is no number at frame 5, a number at frame 7. *)
Definition tdts_sample_entries : list FrameEntry :=
  [mkEntry 3 "SYMBOL_NULL_CELL"; mkEntry 5 "abc"; mkEntry 7 "12"].

(** A well-formed XDTS table. *)
Definition xdts_plain : TimeTable :=
  mkTable "U" 24 (Some [mkField 0 [mkTrack 0 [mkEntry 0 "1"; mkEntry 3 "2"]]])
          [mkHeader 0 ["A"]].

(** What the STS reader makes of [sts_sample] with the name ["A"]. *)
Definition sts_sample_sheet : Timesheet :=
  mkTimesheet "sheets/cut.sts" "cut.sts" 4 [mkLayer "A" [mkFrame 0 5; mkFrame 2 7]].

(** ** Further notions on frame sequences *)

(** The frame indices go up, strictly, from each entry to the next. *)
Fixpoint ascending (l : list Frame) : Prop :=
  match l with
  | f :: r =>
      match r with
      | g :: _ => frame f < frame g
      | [] => True
      end /\ ascending r
  | [] => True
  end.

(** The frame indices never go down from an entry to the next. *)
Fixpoint nondecreasing (l : list Frame) : Prop :=
  match l with
  | f :: r =>
      match r with
      | g :: _ => frame f <= frame g
      | [] => True
      end /\ nondecreasing r
  | [] => True
  end.

(** The cell a layer shows at frame [t]: the cell of the last entry, in the
    order of the list, whose frame index is [t] or less; [shown] is what is
    shown when there is none. *)
Definition cell_from (shown : Z) (l : list Frame) (t : Z) : Z :=
  fold_left (fun acc f => if frame f <=? t then cell f else acc) l shown.

(** Before any entry a layer shows cell 0. *)
Definition cell_at (l : list Frame) (t : Z) : Z := cell_from 0 l t.

(** ** The dense grid of an STS file *)

(** The next [n] cells of a layer as the file holds them, two bytes each,
    as entries for the frames [k], [k + 1], ...; bytes that are not there
    count as the reader counts them. *)
Fixpoint dense_from (k n : nat) (s : list byte) : list Frame :=
  match n with
  | O => []
  | S n' =>
      mkFrame (Z.of_nat k) (int_from_bytes (firstn 2 s)) :: dense_from (S k) n' (skipn 2 s)
  end.

Definition dense_grid (n : nat) (s : list byte) : list Frame := dense_from 0 n s.

(** The grids of [m] layers in a row, each compressed. *)
Fixpoint grids_from (m n : nat) (s : list byte) : list (list Frame) :=
  match m with
  | O => []
  | S m' => compress (dense_grid n s) :: grids_from m' n (skipn (2 * n) s)
  end.

(** A frame of an STS layer lies inside the sheet and its cell fits two
    bytes. *)
Definition in_sheet (frame_count : Z) (f : Frame) : Prop :=
  0 <= frame f < frame_count /\ 0 <= cell f < 65536.

(** ** The layout of an STS file *)

(** What the file holds for one layer: the bytes of its grid, and its name
    record (a length byte and the bytes of the name). *)
Record STS_record : Type := mkRecord {
  grid : list byte;
  length_byte : byte;
  name_bytes : list byte
}.

(** A file laid out as the reader walks it: a reserved byte, the magic, the
    layer count, the frame count (low byte first), two reserved bytes, the
    grids of all layers, the name records of all layers, and whatever
    follows. *)
Definition sts_file (reserved layer_count fc_low fc_high reserved1 reserved2 : byte)
  (records : list STS_record) (trailer : list byte) : list byte :=
  reserved :: magic_bytes
    ++ layer_count :: fc_low :: fc_high :: reserved1 :: reserved2
    :: flat_map grid records
    ++ flat_map (fun r => length_byte r :: name_bytes r) records
    ++ trailer.

(** The layer the reader makes of a record of [n] frames and its decoded
    name. *)
Definition record_layer (n : nat) (r : STS_record) (layer_name : string) : Layer :=
  mkLayer layer_name (compress (dense_grid n (grid r))).

(** ** The readers as mappings *)

(** XDTS: what a value gives when the pattern finds its digits: the
    null-cell symbol is cell 0, a tick or hyphen gives nothing, any other
    value gives the digits found. *)
Definition XDTS_raw_entry (fe : FrameEntry) : list Frame :=
  if (entry_value fe =? "SYMBOL_NULL_CELL")%string then [mkFrame (entry_frame fe) 0]
  else if tick_or_hyphen (entry_value fe) then []
  else
    match re_num_search (entry_value fe) with
    | Some run => [mkFrame (entry_frame fe) (decimal run)]
    | None => []
    end.

(** XDTS: a value the reader has a cell for whatever came before: a symbol,
    or a value in which the pattern finds digits, no more of them than [int]
    takes. *)
Definition numbered (value : string) : Prop :=
  value = "SYMBOL_NULL_CELL" \/ drop_symbol value \/
  exists run, re_num_search value = Some run /\
              Z.of_nat (String.length run) <= int_max_str_digits.

(** The layer of a track once its name and its raw frames are known. *)
Definition track_layer (raw : FrameEntry -> list Frame) (track : Track) (layer_name : string)
  : Layer :=
  mkLayer layer_name (spec_normalize (flat_map raw (track_frames track))).

(** The names of the Timesheets. *)
Definition TDTS_name (path timeSheet_name : string) (timeTable : TimeTable) : string :=
  (basename path ++ "->" ++ timeSheet_name ++ "->" ++ table_name timeTable)%string.

Definition XDTS_name (path : string) (timeTable : TimeTable) : string :=
  (basename path ++ "->" ++ table_name timeTable)%string.

(** ** load *)

(** [str.lower] on a character with a code below 256: the capital letters
    A-Z and the accented capitals U+00C0-U+00DE (the multiplication sign
    U+00D7 apart) move up by 32. *)
Definition lower_char (c : ascii) : ascii :=
  let n := code c in
  if (((65 <=? n) && (n <=? 90))
      || ((192 <=? n) && (n <=? 222) && negb (n =? 215)))%N
  then ascii_of_N (n + 32)
  else c.

Fixpoint lower (s : string) : string :=
  match s with
  | EmptyString => EmptyString
  | String c r => String (lower_char c) (lower r)
  end.

(** [name[name.rfind('.'):]], when there is a dot. *)
Fixpoint from_last_dot (name : string) : option string :=
  match name with
  | EmptyString => None
  | String c r =>
      match from_last_dot r with
      | Some x => Some x
      | None => if (code c =? 46)%N then Some name else None
      end
  end.

(** [PurePath.suffix], from the last component [name] of the path: what
    starts at the last dot, unless that dot is the first or the last
    character of the name. *)
Definition suffix (name : string) : string :=
  match from_last_dot name with
  | Some x =>
      if ((1 <? String.length x) && (String.length x <? String.length name))%nat
      then x else EmptyString
  | None => EmptyString
  end.

(** A JSON document as the two branches of [load] index it: [d["timeSheets"]]
    and [d["timeTables"]], each of which may be missing. *)
Record Document : Type := mkDocument {
  doc_timeSheets : option (list TimeSheet);
  doc_timeTables : option (list TimeTable)
}.

(** The file at the path, as [load] opens it: its bytes (mode ["rb"]) and
    what [readlines] returns for it as UTF-8 text, or the exception. *)
Record File : Type := mkFile {
  file_bytes : list byte;
  file_lines : result (list string)
}.

Section Load.

Variable shift_jis : list byte -> option string.

(** [json.loads], with the result read as a [Document]. *)
Variable json_loads : string -> result Document.

(** ["\n".join(f.readlines()[1:])], parsed. *)
Definition load_json (file : File) : M (list exn) Document :=
  lines <- lift (file_lines file) ;;
  lift (json_loads (String.concat (String (ascii_of_N 10) EmptyString) (tl lines))).

(** [file_path] is the path as text, [str(file_path)]. *)
Definition load (file_path : string) (file : File) : M (list exn) (list Timesheet) :=
  let ext := lower (suffix (basename file_path)) in
  if (ext =? ".sts")%string then
    lift (load_sts shift_jis file_path (file_bytes file))
  else if (ext =? ".tdts")%string then
    d <- load_json file ;;
    match doc_timeSheets d with
    | Some timeSheets => load_tdts file_path timeSheets
    | None => raise (KeyError "timeSheets")
    end
  else if (ext =? ".xdts")%string then
    d <- load_json file ;;
    match doc_timeTables d with
    | Some timeTables => load_xdts file_path timeTables
    | None => raise (KeyError "timeTables")
    end
  else raise (Exception ("TimeseetFileTypeError:" ++ file_path)%string).

End Load.

(** The tables of a TDTS document that have the key ["fields"], each with
    the cut of its sheet, in reading order. *)
Definition tables_with_fields (timeSheets : list TimeSheet) : list (string * TimeTable) :=
  flat_map
    (fun timeSheet =>
       map (fun timeTable => (cut timeSheet, timeTable))
           (filter (fun timeTable => match fields timeTable with
                                     | Some _ => true
                                     | None => false
                                     end)
                   (timeTables timeSheet)))
    timeSheets.

(** A character occurs in a string. *)
Fixpoint has_char (n : N) (s : string) : bool :=
  match s with
  | EmptyString => false
  | String c r => (code c =? n)%N || has_char n r
  end.

(** A well-formed TDTS table, and a table without the key ["fields"]. *)
Definition tdts_plain : TimeTable :=
  mkTable "U" 24 (Some [mkField 4 [mkTrack 0 [mkEntry 0 "1"; mkEntry 3 "2"]]])
          [mkHeader 4 ["A"]].

Definition tdts_no_fields : TimeTable := mkTable "V" 12 None [].

(** A TDTS document of two sheets, each with one table of either kind. *)
Definition tdts_two_sheets : list TimeSheet :=
  [mkSheet "c001" [tdts_plain; tdts_no_fields];
   mkSheet "c002" [tdts_no_fields; tdts_plain]].

(** ** The XDTS loop, entry by entry *)

(** The entries of a track for which the XDTS loop appends a frame: all but
    the ticks and hyphens. *)
Definition appended (entries : list FrameEntry) : list FrameEntry :=
  filter (fun fe => negb (tick_or_hyphen (entry_value fe))) entries.

(** ** An STS stream that may end early *)

(** The name records as the reader takes them from what is left of the
    stream: a length byte (read as 0 when the stream has ended), then as many
    bytes as it says, or those that are left. *)
Fixpoint name_records (m : nat) (s : list byte) : list (list byte) :=
  match m with
  | O => []
  | S m' =>
      let n := Z.to_nat (int_from_bytes (firstn 1 s)) in
      firstn n (skipn 1 s) :: name_records m' (skipn n (skipn 1 s))
  end.

(** What is left of the stream after [m] name records. *)
Fixpoint after_name_records (m : nat) (s : list byte) : list byte :=
  match m with
  | O => s
  | S m' =>
      after_name_records m' (skipn (Z.to_nat (int_from_bytes (firstn 1 s))) (skipn 1 s))
  end.

(** ** Further samples *)

Definition line_feed : string := String (ascii_of_N 10) EmptyString.

(** A digit and the line feed that ends the value. *)
Definition seven_line_feed : string := ("7" ++ line_feed)%string.

(** A run of 4301 digits, one more than [int] takes. *)
Definition long_run : string := string_of_list_ascii (repeat "1"%char 4301).

(** An XDTS table in which a number is followed by a digit and a line feed. *)
Definition xdts_line_feed : TimeTable :=
  mkTable "T" 24
          (Some [mkField 0 [mkTrack 0 [mkEntry 0 "3"; mkEntry 1 seven_line_feed]]])
          [mkHeader 0 ["A"]].

(** An XDTS table whose first value is a digit and a line feed. *)
Definition xdts_line_feed_first : TimeTable :=
  mkTable "T" 24 (Some [mkField 0 [mkTrack 0 [mkEntry 0 seven_line_feed]]])
          [mkHeader 0 ["A"]].

(** An XDTS table with a value of 4301 digits. *)
Definition xdts_long_run : TimeTable :=
  mkTable "T" 24 (Some [mkField 0 [mkTrack 0 [mkEntry 0 "1"; mkEntry 1 long_run]]])
          [mkHeader 0 ["A"]].

(** An XDTS table whose second track starts, after a hyphen, with a value
    without digits: the cell is the one of the first track. *)
Definition xdts_carried : TimeTable :=
  mkTable "T" 24
          (Some [mkField 0 [mkTrack 0 [mkEntry 0 "7"];
                            mkTrack 1 [mkEntry 1 "SYMBOL_HYPHEN"; mkEntry 2 "abc";
                                       mkEntry 5 "cell_042"]]])
          [mkHeader 0 ["A"; "B"]].

(** An XDTS table whose first value to append has no digits; its third
    track has a number without a name. *)
Definition xdts_unbound_nameless : TimeTable :=
  mkTable "T" 24
          (Some [mkField 0 [mkTrack 0 [mkEntry 0 "SYMBOL_TICK_1"];
                            mkTrack 1 [mkEntry 0 "SYMBOL_HYPHEN"; mkEntry 1 "abc";
                                       mkEntry 2 "5"];
                            mkTrack 9 [mkEntry 0 "1"]]])
          [mkHeader 0 ["A"; "B"]].

(** A TDTS table with a track that parses and a track whose only value does
    not. *)
Definition tdts_second_track_abc : TimeTable :=
  mkTable "T" 24
          (Some [mkField 4 [mkTrack 0 tdts_sample_entries; mkTrack 1 [mkEntry 5 "abc"]]])
          [mkHeader 4 ["A"; "B"]].

(** ** Proofs: the monads *)

Lemma bind_Ok {S A B : Type} (m : M S A) (k : A -> M S B) s a s' :
  m s = (Ok a, s') -> bind m k s = k a s'.
Proof. intros H. unfold bind. now rewrite H. Qed.

Lemma bind_Raise {S A B : Type} (m : M S A) (k : A -> M S B) s e s' :
  m s = (Raise e, s') -> bind m k s = (Raise e, s').
Proof. intros H. unfold bind. now rewrite H. Qed.

Lemma bind_inv_Ok {S A B : Type} (m : M S A) (k : A -> M S B) s b s' :
  bind m k s = (Ok b, s') ->
  exists a s1, m s = (Ok a, s1) /\ k a s1 = (Ok b, s').
Proof.
  unfold bind. destruct (m s) as [[a | e] s1]; intros H.
  - now exists a, s1.
  - discriminate.
Qed.

Lemma for_each_app {S A B : Type} (body : A -> B -> M S B) xs ys acc s :
  for_each body (xs ++ ys) acc s =
  bind (for_each body xs acc) (for_each body ys) s.
Proof.
  revert acc s. induction xs as [| x xs IH]; intros acc s; simpl.
  - reflexivity.
  - unfold bind in *. destruct (body x acc s) as [[acc' | e] s1].
    + apply IH.
    + reflexivity.
Qed.

Lemma for_each_raises {S A B : Type} (body : A -> B -> M S B) x xs :
  (forall acc s, exists e, fst (body x acc s) = Raise e) ->
  In x xs ->
  forall acc s, exists e, fst (for_each body xs acc s) = Raise e.
Proof.
  intros Hx. induction xs as [| y xs IH]; intros Hin acc s; [contradiction |].
  cbn [for_each]. unfold bind.
  destruct (body y acc s) as [[acc' | e] s'] eqn:E.
  - destruct Hin as [-> | Hin].
    + destruct (Hx acc s) as (e & He). rewrite E in He. discriminate.
    + now apply IH.
  - now exists e.
Qed.

(** ** Proofs: lists *)

Lemma getitem_middle {A : Type} (pre : list A) x suf :
  getitem (pre ++ x :: suf) (Z.of_nat (List.length pre)) = Ok x.
Proof.
  unfold getitem.
  replace (Z.of_nat (List.length pre) <? 0) with false by (symmetry; apply Z.ltb_ge; lia).
  rewrite length_app. simpl List.length.
  replace (0 <=? Z.of_nat (List.length pre)) with true by (symmetry; apply Z.leb_le; lia).
  replace (Z.of_nat (List.length pre) <? Z.of_nat (List.length pre + S (List.length suf))%nat)
    with true by (symmetry; apply Z.ltb_lt; lia).
  simpl. rewrite Nat2Z.id, nth_error_app2 by lia.
  now rewrite Nat.sub_diag.
Qed.

Lemma pop_middle {A : Type} (pre : list A) x suf :
  pop (pre ++ x :: suf) (Z.of_nat (List.length pre)) = Ok (pre ++ suf).
Proof.
  unfold pop.
  replace (Z.of_nat (List.length pre) <? 0) with false by (symmetry; apply Z.ltb_ge; lia).
  rewrite length_app. simpl List.length.
  replace (0 <=? Z.of_nat (List.length pre)) with true by (symmetry; apply Z.leb_le; lia).
  replace (Z.of_nat (List.length pre) <? Z.of_nat (List.length pre + S (List.length suf))%nat)
    with true by (symmetry; apply Z.ltb_lt; lia).
  cbn [andb]. rewrite Nat2Z.id. f_equal.
  induction pre as [| y pre IH]; simpl; [reflexivity | now f_equal].
Qed.

Lemma getitem_last {A : Type} (pre : list A) x :
  getitem (pre ++ [x]) (-1) = Ok x.
Proof.
  unfold getitem. rewrite length_app. simpl List.length.
  change (-1 <? 0) with true. cbv iota.
  replace (-1 + Z.of_nat (List.length pre + 1)) with (Z.of_nat (List.length pre)) by lia.
  replace (0 <=? Z.of_nat (List.length pre)) with true by (symmetry; apply Z.leb_le; lia).
  replace (Z.of_nat (List.length pre) <? Z.of_nat (List.length pre + 1)%nat)
    with true by (symmetry; apply Z.ltb_lt; lia).
  simpl. rewrite Nat2Z.id, nth_error_app2 by lia.
  now rewrite Nat.sub_diag.
Qed.

(** ** Proofs: normalization *)

Lemma drop_repeats_app prev l1 f l2 :
  drop_repeats prev (l1 ++ f :: l2) =
  drop_repeats prev (l1 ++ [f]) ++ drop_repeats (cell f) l2.
Proof.
  revert prev. induction l1 as [| g l1 IH]; intros prev; simpl.
  - destruct (cell f =? prev); reflexivity.
  - destruct (cell g =? prev); rewrite IH; reflexivity.
Qed.

Lemma compress_snoc2 l y x :
  compress (l ++ [y; x]) =
  compress (l ++ [y]) ++ (if cell x =? cell y then [] else [x]).
Proof.
  destruct l as [| f l]; simpl.
  - destruct (cell x =? cell y); reflexivity.
  - f_equal. rewrite (drop_repeats_app (cell f) l y [x]). reflexivity.
Qed.

(** The backward loop from index [length pre] leaves what lies behind that
    index alone and compresses what lies before. *)
Lemma compress_from_spec pre x suf :
  compress_from (List.length pre) (pre ++ x :: suf) = Ok (compress (pre ++ [x]) ++ suf).
Proof.
  revert x suf. induction pre as [| y pre IH] using rev_ind; intros x suf.
  - reflexivity.
  - rewrite length_app. simpl List.length. rewrite Nat.add_1_r.
    cbn [compress_from].
    replace (Z.of_nat (S (List.length pre))) with (Z.of_nat (List.length (pre ++ [y])))
      by (rewrite length_app; simpl; lia).
    rewrite getitem_middle. cbn [rbind].
    replace (Z.of_nat (List.length (pre ++ [y])) - 1) with (Z.of_nat (List.length pre))
      by (rewrite length_app; simpl; lia).
    rewrite <- app_assoc. simpl app.
    rewrite getitem_middle. cbn [rbind].
    replace ((pre ++ [y]) ++ [x]) with (pre ++ [y; x]) by (now rewrite <- app_assoc).
    rewrite compress_snoc2.
    destruct (cell x =? cell y) eqn:E.
    + replace (pre ++ y :: x :: suf) with ((pre ++ [y]) ++ x :: suf)
        by (now rewrite <- app_assoc).
      rewrite pop_middle. cbn [rbind].
      rewrite <- app_assoc. simpl app. rewrite IH. now rewrite app_nil_r.
    + cbn [rbind]. rewrite IH. now rewrite <- app_assoc.
Qed.

Lemma compress_from_all l :
  compress_from (List.length l - 1) l = Ok (compress l).
Proof.
  destruct l as [| f l] using rev_ind.
  - reflexivity.
  - rewrite length_app. simpl List.length.
    replace (List.length l + 1 - 1)%nat with (List.length l) by lia.
    rewrite compress_from_spec. now rewrite app_nil_r.
Qed.

(** On a sequence that is not empty the constructor does what the design
    says. *)
Lemma normalize_nonempty f r :
  normalize (f :: r) = Ok (spec_normalize (f :: r)).
Proof.
  unfold normalize, spec_normalize, with_frame_zero.
  change (getitem (f :: r) 0) with (Ok f). cbn [rbind].
  destruct (frame f =? 0); cbn [negb]; apply compress_from_all.
Qed.

Lemma normalize_empty : normalize [] = Raise IndexError.
Proof. reflexivity. Qed.

Lemma drop_repeats_no_adjacent l prev :
  no_adjacent_duplicates (drop_repeats prev l) /\
  match drop_repeats prev l with
  | g :: _ => prev <> cell g
  | [] => True
  end.
Proof.
  revert prev. induction l as [| f l IH]; intros prev; simpl.
  - split; exact I.
  - destruct (IH (cell f)) as [IH1 IH2].
    destruct (cell f =? prev) eqn:E.
    + apply Z.eqb_eq in E. rewrite <- E. split; assumption.
    + apply Z.eqb_neq in E. simpl. repeat split; auto.
Qed.

Lemma compress_no_adjacent l : no_adjacent_duplicates (compress l).
Proof.
  destruct l as [| f l]; simpl; [exact I |].
  destruct (drop_repeats_no_adjacent l (cell f)) as [H1 H2]. split; assumption.
Qed.

Lemma drop_repeats_fixed l prev :
  no_adjacent_duplicates l ->
  match l with g :: _ => prev <> cell g | [] => True end ->
  drop_repeats prev l = l.
Proof.
  revert prev. induction l as [| f l IH]; intros prev Hl Hp; simpl.
  - reflexivity.
  - destruct Hl as [Hf Hl].
    destruct (cell f =? prev) eqn:E.
    + apply Z.eqb_eq in E. congruence.
    + f_equal. apply IH; assumption.
Qed.

Lemma compress_fixed l : no_adjacent_duplicates l -> compress l = l.
Proof.
  destruct l as [| f l]; simpl; [reflexivity |].
  intros [Hf Hl]. f_equal. apply drop_repeats_fixed; assumption.
Qed.

Lemma spec_normalize_starts_at_zero raw : starts_at_zero (spec_normalize raw).
Proof.
  unfold spec_normalize, with_frame_zero, starts_at_zero.
  destruct raw as [| f r].
  - simpl. eauto.
  - destruct (frame f =? 0) eqn:E; simpl.
    + apply Z.eqb_eq in E. eauto.
    + eauto.
Qed.

Lemma with_frame_zero_fixed l : starts_at_zero l -> with_frame_zero l = l.
Proof.
  intros (f & r & -> & Hf). simpl. now rewrite Hf.
Qed.

Lemma spec_normalize_idempotent raw :
  spec_normalize (spec_normalize raw) = spec_normalize raw.
Proof.
  unfold spec_normalize at 1.
  rewrite with_frame_zero_fixed by apply spec_normalize_starts_at_zero.
  apply compress_fixed. apply compress_no_adjacent.
Qed.

Lemma normalize_Ok_inv raw l :
  normalize raw = Ok l -> raw <> [] /\ l = spec_normalize raw.
Proof.
  destruct raw as [| f r].
  - discriminate.
  - rewrite normalize_nonempty. intros [= <-]. split; [discriminate | reflexivity].
Qed.

Lemma spec_normalize_nonempty raw : spec_normalize raw <> [].
Proof.
  destruct (spec_normalize_starts_at_zero raw) as (f & r & E & _).
  rewrite E. discriminate.
Qed.

(** ** Proofs: the constructor *)

Lemma normalize_layers_normal ls ls' :
  normalize_layers ls = Ok ls' -> Forall normal_layer ls'.
Proof.
  revert ls'. induction ls as [| l ls IH]; intros ls'; simpl.
  - intros [= <-]. constructor.
  - destruct (normalize (frames l)) as [fr | e] eqn:E; cbn [rbind]; [| discriminate].
    destruct (normalize_layers ls) as [rest | e] eqn:E'; cbn [rbind]; [| discriminate].
    intros [= <-]. constructor.
    + apply normalize_Ok_inv in E. destruct E as [Hne ->].
      exists (frames l). split; [assumption | reflexivity].
    + now apply IH.
Qed.

Lemma Timesheet_init_normal path name fc ls ts :
  Timesheet_init path name fc ls = Ok ts -> Forall normal_layer (layers ts).
Proof.
  unfold Timesheet_init.
  destruct (normalize_layers ls) as [ls' | e] eqn:E; cbn [rbind]; [| discriminate].
  intros [= <-]. simpl. eapply normalize_layers_normal; eassumption.
Qed.

Ltac inv_bind H :=
  let a := fresh "a" in
  let s := fresh "s" in
  let H1 := fresh "Hm" in
  apply bind_inv_Ok in H; destruct H as (a & s & H1 & H).

Lemma lift_inv_Ok {S A : Type} (r : result A) (s s' : S) a :
  lift r s = (Ok a, s') -> r = Ok a.
Proof. unfold lift. now intros [= -> _]. Qed.

Lemma STS_init_normal shift_jis path content ts rest :
  STS_init shift_jis path content = (Ok ts, rest) -> Forall normal_layer (layers ts).
Proof.
  unfold STS_init. intros H.
  inv_bind H. inv_bind H.
  destruct (utf8_decode a0); [| discriminate].
  destruct (negb _); [discriminate |].
  do 5 inv_bind H.
  apply lift_inv_Ok in H. eapply Timesheet_init_normal; eassumption.
Qed.

Lemma TDTS_init_normal path timeSheet_name timeTable err ts err' :
  TDTS_init path timeSheet_name timeTable err = (Ok ts, err') ->
  Forall normal_layer (layers ts).
Proof.
  unfold TDTS_init. intros H. inv_bind H.
  apply lift_inv_Ok in H. eapply Timesheet_init_normal; eassumption.
Qed.

Lemma XDTS_init_normal path timeTable err ts err' :
  XDTS_init path timeTable err = (Ok ts, err') ->
  Forall normal_layer (layers ts).
Proof.
  unfold XDTS_init. intros H. inv_bind H.
  apply lift_inv_Ok in H. eapply Timesheet_init_normal; eassumption.
Qed.

Lemma constructed_normal ts : constructed ts -> Forall normal_layer (layers ts).
Proof.
  intros [? ? ? ? ? H | ? ? ? ? ? ? H | ? ? ? ? ? H].
  - eapply STS_init_normal; eassumption.
  - eapply TDTS_init_normal; eassumption.
  - eapply XDTS_init_normal; eassumption.
Qed.

(** ** The claims on normalization *)

(** C1.  The design has normalization put [(0, 0)] in front of an empty
    sequence.  The constructor reads [frames[0]] first: on a layer without
    frames it raises IndexError and no Timesheet is made, whatever the other
    layers hold. *)
Theorem Timesheet_init_empty_layer path name fc before layer_name after :
  spec_normalize [] = [mkFrame 0 0] /\
  normalize [] = Raise IndexError /\
  (Forall (fun l => frames l <> []) before ->
   Timesheet_init path name fc (before ++ mkLayer layer_name [] :: after)
   = Raise IndexError).
Proof.
  split; [reflexivity | split; [reflexivity |]].
  unfold Timesheet_init. intros Hb.
  assert (E : normalize_layers (before ++ mkLayer layer_name [] :: after) = Raise IndexError).
  { induction Hb as [| l before Hl Hb IH]; simpl.
    - reflexivity.
    - destruct (frames l) as [| f r] eqn:El; [congruence |].
      rewrite normalize_nonempty. cbn [rbind]. now rewrite IH. }
  now rewrite E.
Qed.

Lemma Timesheet_init_empty_layer_witness :
  Forall (fun l => frames l <> []) [mkLayer "A" [mkFrame 0 1]] /\
  Timesheet_init "cut.xdts" "cut.xdts->T" 24
                 ([mkLayer "A" [mkFrame 0 1]] ++ mkLayer "B" [] :: [mkLayer "C" [mkFrame 0 2]])
  = Raise IndexError.
Proof.
  assert (H : Forall (fun l => frames l <> []) [mkLayer "A" [mkFrame 0 1]])
    by (repeat constructor; discriminate).
  split; [exact H |].
  exact (proj2 (proj2 (Timesheet_init_empty_layer
                         "cut.xdts" "cut.xdts->T" 24 [mkLayer "A" [mkFrame 0 1]] "B"
                         [mkLayer "C" [mkFrame 0 2]])) H).
Defined.

(** The readers reach the constructor with such a layer. *)
Lemma STS_no_frames_raises :
  STS_init shift_jis_ascii "cut.sts" sts_no_frames = (Raise IndexError, []).
Proof. vm_compute. reflexivity. Qed.

Lemma XDTS_hyphen_only_raises :
  XDTS_init "cut.xdts" xdts_hyphen_only [] = (Raise IndexError, []).
Proof. vm_compute. reflexivity. Qed.

Lemma TDTS_abc_only_raises :
  TDTS_init "cut.tdts" "c001" tdts_abc_only [] = (Raise IndexError, [ValueError "abc"]).
Proof. vm_compute. reflexivity. Qed.

(** What holds of the frame-zero invariant: a Timesheet that was constructed
    has [frames[0].frame == 0] in every layer. *)
Theorem constructed_starts_at_zero ts :
  constructed ts -> Forall (fun l => starts_at_zero (frames l)) (layers ts).
Proof.
  intros H. apply constructed_normal in H.
  eapply Forall_impl; [| exact H].
  intros l (raw & _ & ->). apply spec_normalize_starts_at_zero.
Qed.

(** C4.  In every layer of a Timesheet that one of the three readers
    constructed, no two consecutive frames have the same cell. *)
Theorem constructed_no_adjacent_duplicates ts :
  constructed ts -> Forall (fun l => no_adjacent_duplicates (frames l)) (layers ts).
Proof.
  intros H. apply constructed_normal in H.
  eapply Forall_impl; [| exact H].
  intros l (raw & _ & ->). apply compress_no_adjacent.
Qed.

Lemma sts_sample_sheet_constructed : constructed sts_sample_sheet.
Proof.
  apply (constructed_STS shift_jis_ascii "sheets/cut.sts" (sts_sample x01 [x41])
                         sts_sample_sheet []).
  vm_compute. reflexivity.
Qed.

Lemma constructed_starts_at_zero_witness :
  constructed sts_sample_sheet /\
  Forall (fun l => starts_at_zero (frames l)) (layers sts_sample_sheet).
Proof.
  split; [exact sts_sample_sheet_constructed |].
  apply (constructed_starts_at_zero sts_sample_sheet).
  exact sts_sample_sheet_constructed.
Defined.

Lemma constructed_no_adjacent_duplicates_witness :
  constructed sts_sample_sheet /\
  Forall (fun l => no_adjacent_duplicates (frames l)) (layers sts_sample_sheet).
Proof.
  split; [exact sts_sample_sheet_constructed |].
  apply (constructed_no_adjacent_duplicates sts_sample_sheet).
  exact sts_sample_sheet_constructed.
Defined.

(** C5.  Normalization is idempotent: run on its own result it returns that
    result (and on the empty sequence it raises both times). *)
Theorem normalize_idempotent raw :
  rbind (normalize raw) normalize = normalize raw.
Proof.
  destruct raw as [| f r].
  - reflexivity.
  - rewrite normalize_nonempty. cbn [rbind].
    destruct (spec_normalize (f :: r)) as [| g l] eqn:E.
    + now apply spec_normalize_nonempty in E.
    + rewrite normalize_nonempty, <- E. now rewrite spec_normalize_idempotent.
Qed.

(** ** Proofs: the UTF-8 codec *)

Lemma in_range_true lo hi b : in_range lo hi b = true -> lo <= byte_val b <= hi.
Proof. unfold in_range. rewrite andb_true_iff, !Z.leb_le. tauto. Qed.

Lemma byte_val_inj a b : byte_val a = byte_val b -> a = b.
Proof.
  unfold byte_val. intros H. apply N2Z.inj in H.
  assert (E : Some a = Some b)
    by (rewrite <- (Byte.of_to_N a), <- (Byte.of_to_N b); now rewrite H).
  now injection E.
Qed.

Lemma map_byte_val_inj l1 l2 : map byte_val l1 = map byte_val l2 -> l1 = l2.
Proof.
  revert l2. induction l1 as [| a l1 IH]; intros [| b l2]; simpl; try discriminate.
  - reflexivity.
  - intros [= Hab Hl]. f_equal; [now apply byte_val_inj | now apply IH].
Qed.

Lemma byte_val_nonneg b : 0 <= byte_val b.
Proof. unfold byte_val. lia. Qed.

Lemma int_from_bytes_nonneg bs : 0 <= int_from_bytes bs.
Proof.
  induction bs as [| b bs IH]; cbn [int_from_bytes]; [lia |].
  pose proof (byte_val_nonneg b). lia.
Qed.

Ltac range_facts :=
  repeat match goal with
  | H : in_range _ _ _ = true |- _ => apply in_range_true in H
  | H : continuation _ = true |- _ => apply in_range_true in H
  | H : (_ =? _) = true |- _ => apply Z.eqb_eq in H
  | H : (_ =? _) = false |- _ => apply Z.eqb_neq in H
  | H : _ && _ = true |- _ => apply andb_true_iff in H; destruct H
  end.

(** Text whose code points are all below 128 has one encoding only: the
    bytes with those values.  (The decoder walks the bytes in steps of one to
    four, hence the induction on a bound of the length.) *)
Lemma utf8_ascii_inv_bounded n :
  forall bs t, (List.length bs <= n)%nat ->
  utf8_decode bs = Some t -> Forall (fun z => z < 128) t -> map byte_val bs = t.
Proof.
  induction n as [| n IH]; intros bs t Hn.
  - destruct bs; [| simpl in Hn; lia]. simpl. now intros [= <-].
  - destruct bs as [| b1 r1]; [simpl; now intros [= <-] |].
    simpl in Hn. cbn [utf8_decode].
    destruct (in_range 0 127 b1) eqn:E1.
    { destruct (utf8_decode r1) as [t1 |] eqn:D; [| discriminate].
      intros [= <-] Hall. inversion_clear Hall. simpl. f_equal.
      apply IH; [lia | assumption | assumption]. }
    destruct (in_range 194 223 b1) eqn:E2.
    { destruct r1 as [| b2 r2]; [discriminate |].
      destruct (continuation b2) eqn:C2; [| discriminate].
      destruct (utf8_decode r2); [| discriminate].
      intros [= <-] Hall. inversion_clear Hall. range_facts. lia. }
    destruct (in_range 224 239 b1) eqn:E3.
    { destruct r1 as [| b2 [| b3 r3]]; try discriminate.
      match goal with
      | |- context [if ?c then _ else None] => destruct c eqn:C
      end; [| discriminate].
      destruct (utf8_decode r3); [| discriminate].
      intros [= <-] Hall. inversion_clear Hall.
      destruct (byte_val b1 =? 224) eqn:Q1; [| destruct (byte_val b1 =? 237) eqn:Q2];
        range_facts; lia. }
    destruct (in_range 240 244 b1) eqn:E4.
    { destruct r1 as [| b2 [| b3 [| b4 r4]]]; try discriminate.
      match goal with
      | |- context [if ?c then _ else None] => destruct c eqn:C
      end; [| discriminate].
      destruct (utf8_decode r4); [| discriminate].
      intros [= <-] Hall. inversion_clear Hall.
      destruct (byte_val b1 =? 240) eqn:Q1; [| destruct (byte_val b1 =? 244) eqn:Q2];
        range_facts; lia. }
    discriminate.
Qed.

(** Only the seventeen ASCII bytes decode to the magic. *)
Lemma utf8_decode_magic_inv bs :
  utf8_decode bs = Some (text_of "ShiraheiTimeSheet") -> bs = magic_bytes.
Proof.
  intros H. apply map_byte_val_inj.
  rewrite (utf8_ascii_inv_bounded (List.length bs) bs _ (le_n _) H).
  - reflexivity.
  - vm_compute. repeat constructor.
Qed.

Lemma utf8_decode_magic : utf8_decode magic_bytes = Some (text_of "ShiraheiTimeSheet").
Proof. reflexivity. Qed.

Lemma text_eqb_true a b : text_eqb a b = true -> a = b.
Proof. unfold text_eqb. destruct (list_eq_dec Z.eq_dec a b); [trivial | discriminate]. Qed.

(** ** Proofs: the STS reader *)

Lemma skipn_nth_error {A : Type} (l : list A) k x :
  nth_error l k = Some x -> skipn k l = x :: skipn (S k) l.
Proof.
  revert k. induction l as [| y l IH]; intros [| k]; simpl; try discriminate.
  - now intros [= ->].
  - intros H. now apply IH.
Qed.

Lemma length_range n : List.length (range n) = n.
Proof. unfold range. now rewrite length_map, length_seq. Qed.

Ltac run_step := erewrite bind_Ok by (vm_compute; reflexivity).

Section STS_proofs.

Variable shift_jis : list byte -> option string.

(** Without the magic the reader raises, and which exception it raises is
    decided by the UTF-8 codec. *)
Lemma STS_init_without_magic path content :
  firstn 17 (skipn 1 content) <> magic_bytes ->
  STS_init shift_jis path content
  = (Raise (magic_failure (firstn 17 (skipn 1 content))), skipn 17 (skipn 1 content)).
Proof.
  intros Hm. unfold STS_init, magic_failure.
  erewrite bind_Ok by reflexivity. erewrite bind_Ok by reflexivity.
  destruct (utf8_decode (firstn 17 (skipn 1 content))) as [text |] eqn:D.
  - destruct (text_eqb text (text_of "ShiraheiTimeSheet")) eqn:E.
    + apply text_eqb_true in E. subst text.
      apply utf8_decode_magic_inv in D. contradiction.
    + reflexivity.
  - reflexivity.
Qed.

(** One name record, read whole. *)
Lemma STS_layer_record frames_list i layers nl nb name rest frames :
  Z.to_nat (byte_val nl) = List.length nb ->
  shift_jis nb = Some name ->
  getitem frames_list i = Ok frames ->
  STS_layer shift_jis frames_list i layers (nl :: nb ++ rest)
  = (Ok (layers ++ [mkLayer name frames]), rest).
Proof.
  intros Hl Hn Hf. unfold STS_layer.
  erewrite bind_Ok; cycle 1.
  { unfold read_int. erewrite bind_Ok by reflexivity. reflexivity. }
  cbn [firstn int_from_bytes]. rewrite Z.mul_0_r, Z.add_0_r.
  erewrite bind_Ok; cycle 1.
  { unfold read. rewrite Hl. cbn [skipn].
    rewrite firstn_app, firstn_all, Nat.sub_diag, skipn_app, skipn_all, Nat.sub_diag.
    cbn [firstn skipn app]. rewrite app_nil_r. reflexivity. }
  rewrite Hn. erewrite bind_Ok; cycle 1.
  { unfold lift. rewrite Hf. reflexivity. }
  reflexivity.
Qed.

End STS_proofs.

(** ** The claims on the STS reader *)

(** C6.  The synthetic file with one layer, four frames and the grid
    5, 5, 7, 7 reads as one Timesheet whose layer has the frames
    [(0, 5); (2, 7)], whatever the name record holds, as long as the name
    decodes. *)
Theorem STS_round_trip shift_jis path name_length name_bytes name :
  Z.to_nat (byte_val name_length) = List.length name_bytes ->
  shift_jis name_bytes = Some name ->
  STS_init shift_jis path (sts_sample name_length name_bytes)
  = (Ok (mkTimesheet path (basename path) 4 [mkLayer name [mkFrame 0 5; mkFrame 2 7]]),
     []).
Proof.
  intros Hl Hn.
  unfold STS_init, sts_sample.
  run_step. run_step.
  change (utf8_decode _) with (Some (text_of "ShiraheiTimeSheet")).
  cbv iota beta.
  change (text_eqb _ _) with true.
  cbv iota beta. cbn [negb].
  run_step. run_step. run_step. run_step.
  change (range (Z.to_nat 1)) with [0]. cbn [for_each].
  erewrite bind_Ok; cycle 1.
  { erewrite bind_Ok; cycle 1.
    { rewrite <- (app_nil_r name_bytes).
      eapply STS_layer_record; [eassumption | eassumption | reflexivity]. }
    reflexivity. }
  reflexivity.
Qed.

Lemma STS_round_trip_witness :
  Z.to_nat (byte_val x01) = List.length [x41] /\
  shift_jis_ascii [x41] = Some "A" /\
  STS_init shift_jis_ascii "sheets/cut.sts" (sts_sample x01 [x41])
  = (Ok (mkTimesheet "sheets/cut.sts" (basename "sheets/cut.sts") 4
                     [mkLayer "A" [mkFrame 0 5; mkFrame 2 7]]), []).
Proof.
  split; [reflexivity | split; [reflexivity |]].
  apply (STS_round_trip shift_jis_ascii "sheets/cut.sts" x01 [x41] "A"); reflexivity.
Defined.

(** What the code does when the 17 bytes after the reserved byte do not
    decode to the magic: it raises and returns no Timesheet; the exception is
    [NotSTSFileFormatError] when the bytes are other text, and the codec's
    [UnicodeDecodeError] when they are not UTF-8 at all. *)
Theorem STS_bad_magic shift_jis path content :
  utf8_decode (firstn 17 (skipn 1 content)) <> Some (text_of "ShiraheiTimeSheet") ->
  fst (STS_init shift_jis path content)
  = Raise (magic_failure (firstn 17 (skipn 1 content))).
Proof.
  intros H. rewrite STS_init_without_magic; [reflexivity |].
  intros E. apply H. rewrite E. reflexivity.
Qed.

Lemma STS_bad_magic_witness :
  utf8_decode (firstn 17 (skipn 1 sts_other_text)) <> Some (text_of "ShiraheiTimeSheet") /\
  fst (STS_init shift_jis_ascii "cut.sts" sts_other_text)
  = Raise (Exception "NotSTSFileFormatError").
Proof.
  split; [vm_compute; discriminate |].
  apply (STS_bad_magic shift_jis_ascii "cut.sts" sts_other_text).
  vm_compute. discriminate.
Defined.

(** C7.  The claim has every file without the magic fail with
    [NotSTSFileFormatError], which is what the comparison of line 138 is
    there for.  Where the 17 bytes are not UTF-8 the comparison is never
    reached: [decode] raises first and the exception is the codec's. *)
Lemma STS_not_utf8_raises_decode_error :
  utf8_decode (firstn 17 (skipn 1 sts_not_utf8)) = None /\
  STS_init shift_jis_ascii "cut.sts" sts_not_utf8
  = (Raise (UnicodeDecodeError "utf-8"), skipn 18 sts_not_utf8).
Proof. split; vm_compute; reflexivity. Qed.

(** C2 as stated fails on the sample file cut inside its grid: the reader
    returns a Timesheet, with zeros for the cells that are not there. *)
Lemma STS_truncated_accepted :
  STS_init shift_jis_ascii "cut.sts" sts_truncated
  = (Ok (mkTimesheet "cut.sts" "cut.sts" 4 [mkLayer EmptyString [mkFrame 0 5; mkFrame 2 0]]), []).
Proof. vm_compute. reflexivity. Qed.

Lemma STS_header_only_accepted :
  STS_init shift_jis_ascii "cut.sts" sts_header_only
  = (Ok (mkTimesheet "cut.sts" "cut.sts" 0 []), []).
Proof. vm_compute. reflexivity. Qed.

(** ** Proofs: int and the pattern *)

Lemma digit_not_space c : is_digit c = true -> int_space c = false.
Proof.
  unfold is_digit, int_space. intros H.
  apply andb_true_iff in H. destruct H as [H1 H2].
  apply N.leb_le in H1, H2.
  repeat rewrite orb_false_iff. repeat split.
  - apply andb_false_iff. right. apply N.leb_gt. lia.
  - apply N.eqb_neq. lia.
  - apply N.eqb_neq. lia.
  - apply N.eqb_neq. lia.
Qed.

Lemma lstrip_digits l : forallb is_digit l = true -> lstrip l = l.
Proof.
  destruct l as [| c l]; simpl; [reflexivity |].
  intros H. apply andb_true_iff in H. destruct H as [H _].
  now rewrite (digit_not_space c H).
Qed.

Lemma forallb_rev_true {A : Type} (p : A -> bool) l :
  forallb p l = true -> forallb p (rev l) = true.
Proof.
  rewrite !forallb_forall. intros H x Hx. apply H. now apply in_rev.
Qed.

Lemma strip_digits l : forallb is_digit l = true -> strip l = l.
Proof.
  intros H. unfold strip. rewrite (lstrip_digits l H).
  rewrite (lstrip_digits (rev l)) by now apply forallb_rev_true.
  apply rev_involutive.
Qed.

Lemma int_digits_digits l : forall acc after_digit,
  forallb is_digit l = true ->
  l <> [] \/ after_digit = true ->
  int_digits acc after_digit l
  = Some (fold_left (fun acc c => 10 * acc + digit_value c) l acc).
Proof.
  induction l as [| c l IH]; intros acc after_digit Hd Hne.
  - destruct Hne as [Hne | ->]; [congruence | reflexivity].
  - simpl in Hd. apply andb_true_iff in Hd. destruct Hd as [Hc Hl].
    cbn [int_digits fold_left]. rewrite Hc. apply IH; [assumption | now right].
Qed.

Lemma filter_digits l : forallb is_digit l = true -> filter is_digit l = l.
Proof.
  induction l as [| c l IH]; simpl; [reflexivity |].
  intros H. apply andb_true_iff in H. destruct H as [Hc Hl].
  rewrite Hc. f_equal. now apply IH.
Qed.

Lemma length_list_ascii s : List.length (list_ascii_of_string s) = String.length s.
Proof. induction s as [| c s IH]; simpl; [reflexivity | now rewrite IH]. Qed.

(** [int] of a run of digits is its decimal value, up to the limit on the
    number of digits. *)
Lemma py_int_digits run :
  forallb is_digit (list_ascii_of_string run) = true ->
  run <> EmptyString ->
  py_int run =
  if int_max_str_digits <? Z.of_nat (String.length run) then None else Some (decimal run).
Proof.
  intros Hd Hne. unfold py_int, decimal. rewrite (strip_digits _ Hd).
  destruct run as [| c run]; [congruence |].
  rewrite <- length_list_ascii.
  cbn [list_ascii_of_string] in *.
  assert (Hc : is_digit c = true) by (simpl in Hd; now apply andb_true_iff in Hd).
  unfold is_digit in Hc. apply andb_true_iff in Hc. destruct Hc as [H1 H2].
  apply N.leb_le in H1, H2.
  replace (code c =? 45)%N with false by (symmetry; apply N.eqb_neq; lia).
  replace (code c =? 43)%N with false by (symmetry; apply N.eqb_neq; lia).
  cbn [orb]. cbv zeta. rewrite (filter_digits _ Hd).
  destruct (int_max_str_digits <? _); [reflexivity |].
  apply int_digits_digits; [assumption | left; discriminate].
Qed.

Lemma match_digits_dollar_digits s m :
  match_digits_dollar s = Some m ->
  forallb is_digit (list_ascii_of_string m) = true /\ m <> EmptyString.
Proof.
  revert m. induction s as [| c s IH]; intros m; simpl; [discriminate |].
  destruct (is_digit c) eqn:Hc; [| discriminate].
  destruct (match_digits_dollar s) as [m' |].
  - intros [= <-]. destruct (IH m' eq_refl) as [H _].
    simpl. rewrite Hc, H. split; [reflexivity | discriminate].
  - destruct (at_dollar s); [| discriminate].
    intros [= <-]. simpl. rewrite Hc. split; [reflexivity | discriminate].
Qed.

Lemma re_num_search_eq s :
  re_num_search s =
  match match_digits_dollar s with
  | Some m => Some m
  | None =>
      match s with
      | EmptyString => None
      | String _ rest => re_num_search rest
      end
  end.
Proof. destruct s; reflexivity. Qed.

(** What the pattern finds is a run of digits, one at least. *)
Lemma re_num_search_digits s run :
  re_num_search s = Some run ->
  forallb is_digit (list_ascii_of_string run) = true /\ run <> EmptyString.
Proof.
  induction s as [| c s IH]; rewrite re_num_search_eq.
  - simpl. discriminate.
  - destruct (match_digits_dollar (String c s)) as [m |] eqn:E.
    + intros [= <-]. eapply match_digits_dollar_digits; eassumption.
    + exact IH.
Qed.

Lemma re_num_search_py_int value run :
  re_num_search value = Some run ->
  py_int run =
  if int_max_str_digits <? Z.of_nat (String.length run) then None else Some (decimal run).
Proof.
  intros H. apply re_num_search_digits in H. destruct H as [Hd Hne].
  now apply py_int_digits.
Qed.

(** *** The pattern finds the digits at the end

    [search] with [\d+$] returns the run of digits at the end of the value,
    where a line feed that ends the value is not counted (that is what [$]
    means without MULTILINE), and nothing when there is no such run. *)

Lemma digit_not_newline c : is_digit c = true -> (code c =? 10)%N = false.
Proof.
  unfold is_digit. intros H. apply andb_true_iff in H. destruct H as [H _].
  apply N.leb_le in H. apply N.eqb_neq. lia.
Qed.

Lemma at_dollar_chomp s : at_dollar s = negb (nonempty (chomp s)).
Proof.
  destruct s as [| c [| c' r]]; simpl; try reflexivity.
  destruct (code c =? 10)%N; reflexivity.
Qed.

Lemma match_digits_dollar_spec s :
  match_digits_dollar s =
  if all_digits (chomp s) && nonempty (chomp s) then Some (chomp s) else None.
Proof.
  induction s as [| c r IH]; [reflexivity |].
  cbn [match_digits_dollar]. rewrite IH, at_dollar_chomp.
  destruct r as [| c' r'].
  - simpl. destruct (is_digit c) eqn:Hc.
    + rewrite (digit_not_newline c Hc). simpl. now rewrite Hc.
    + destruct (code c =? 10)%N; simpl; [reflexivity | now rewrite Hc].
  - change (chomp (String c (String c' r'))) with (String c (chomp (String c' r'))).
    cbn [all_digits nonempty]. rewrite andb_true_r.
    destruct (is_digit c); [| reflexivity]. cbn [andb].
    destruct (chomp (String c' r')) as [| a t]; [reflexivity |].
    cbn [nonempty negb]. rewrite andb_true_r.
    destruct (all_digits (String a t)); reflexivity.
Qed.

Lemma re_num_search_spec s :
  re_num_search s =
  if nonempty (digit_suffix (chomp s)) then Some (digit_suffix (chomp s)) else None.
Proof.
  induction s as [| c r IH]; [reflexivity |].
  rewrite re_num_search_eq, match_digits_dollar_spec, IH.
  destruct r as [| c' r'].
  - simpl. destruct (code c =? 10)%N; simpl; [reflexivity |].
    rewrite andb_true_r. destruct (is_digit c); reflexivity.
  - change (chomp (String c (String c' r'))) with (String c (chomp (String c' r'))).
    cbn [nonempty digit_suffix]. rewrite andb_true_r.
    destruct (all_digits (String c (chomp (String c' r')))); reflexivity.
Qed.

Lemma all_digits_digit_suffix s : all_digits s = true -> digit_suffix s = s.
Proof. destruct s; simpl; [reflexivity |]. now intros ->. Qed.

(** A value that ends in digits does not end in a line feed. *)
Lemma digit_suffix_chomp s : nonempty (digit_suffix s) = true -> chomp s = s.
Proof.
  induction s as [| c r IH]; [reflexivity |].
  destruct r as [| c' r'].
  - simpl. rewrite andb_true_r. destruct (is_digit c) eqn:Hc; [| discriminate].
    now rewrite (digit_not_newline c Hc).
  - change (chomp (String c (String c' r'))) with (String c (chomp (String c' r'))).
    cbn [digit_suffix]. intros H. f_equal. apply IH.
    destruct (all_digits (String c (String c' r'))) eqn:A; [| exact H].
    cbn [all_digits] in A. apply andb_true_iff in A. destruct A as [_ A].
    change (all_digits (String c' r') = true) in A.
    now rewrite (all_digits_digit_suffix _ A).
Qed.

Lemma re_num_search_trailing s :
  nonempty (digit_suffix s) = true -> re_num_search s = Some (digit_suffix s).
Proof.
  intros H. rewrite re_num_search_spec, (digit_suffix_chomp s H). now rewrite H.
Qed.

(** ** The claims on the TDTS reader *)

Lemma TDTS_entry_spec fe frames err :
  TDTS_entry fe frames err
  = (Ok (frames ++ TDTS_raw_entry fe), err ++ TDTS_diagnostic fe).
Proof.
  unfold TDTS_entry, TDTS_raw_entry, TDTS_diagnostic.
  destruct (entry_value fe =? "SYMBOL_NULL_CELL")%string.
  - unfold ret. now rewrite app_nil_r.
  - destruct (py_int (entry_value fe)).
    + unfold ret. now rewrite app_nil_r.
    + unfold bind, print_exc, ret. now rewrite app_nil_r.
Qed.

Lemma TDTS_entries_spec entries : forall frames err,
  for_each TDTS_entry entries frames err
  = (Ok (frames ++ flat_map TDTS_raw_entry entries),
     err ++ flat_map TDTS_diagnostic entries).
Proof.
  induction entries as [| fe entries IH]; intros frames err.
  - simpl. unfold ret. now rewrite !app_nil_r.
  - cbn [for_each flat_map]. erewrite bind_Ok by apply TDTS_entry_spec.
    rewrite IH. now rewrite <- !app_assoc.
Qed.

(** A track fails on its name only, never on a value. *)
Lemma TDTS_track_spec names track layers err :
  TDTS_track names track layers err =
  match getitem names (trackNo track) with
  | Ok name =>
      (Ok (layers ++ [mkLayer name (flat_map TDTS_raw_entry (track_frames track))]),
       err ++ flat_map TDTS_diagnostic (track_frames track))
  | Raise e => (Raise e, err)
  end.
Proof.
  unfold TDTS_track, bind, lift.
  destruct (getitem names (trackNo track)); [| reflexivity].
  now rewrite TDTS_entries_spec.
Qed.

(** ** More on normalization *)

(** On every sequence that is not empty the constructor's loop, which pops
    in place from the back, computes what the design describes from the
    front: [(0, 0)] is put first when the first frame index is not 0, and an
    entry stays exactly when it is the first or its cell differs from the
    cell of the entry before it in the sequence. *)
Theorem normalize_refines_spec raw :
  raw <> [] -> normalize raw = Ok (spec_normalize raw).
Proof.
  destruct raw as [| f r]; [congruence |].
  intros _. apply normalize_nonempty.
Qed.

Lemma normalize_refines_spec_witness :
  [mkFrame 3 5; mkFrame 4 5; mkFrame 6 7; mkFrame 8 7; mkFrame 9 5] <> [] /\
  normalize [mkFrame 3 5; mkFrame 4 5; mkFrame 6 7; mkFrame 8 7; mkFrame 9 5]
  = Ok (spec_normalize [mkFrame 3 5; mkFrame 4 5; mkFrame 6 7; mkFrame 8 7; mkFrame 9 5]).
Proof.
  split; [discriminate |].
  apply (normalize_refines_spec
           [mkFrame 3 5; mkFrame 4 5; mkFrame 6 7; mkFrame 8 7; mkFrame 9 5]).
  discriminate.
Defined.

Lemma cell_from_drop_repeats t r : forall p shown,
  nondecreasing (p :: r) ->
  (frame p <= t -> shown = cell p) ->
  cell_from shown (drop_repeats (cell p) r) t = cell_from shown r t.
Proof.
  unfold cell_from.
  induction r as [| f r IH]; intros p shown Hs Hp; [reflexivity |].
  destruct Hs as [Hpf Hs].
  cbn [drop_repeats fold_left].
  destruct (cell f =? cell p) eqn:E.
  - apply Z.eqb_eq in E.
    destruct (frame f <=? t) eqn:Ft.
    + apply Z.leb_le in Ft.
      assert (Hshown : shown = cell f) by (rewrite E; apply Hp; lia).
      rewrite Hshown. apply (IH f (cell f)); [assumption | reflexivity].
    + apply Z.leb_gt in Ft. apply (IH f shown); [assumption | intros; lia].
  - cbn [fold_left]. apply (IH f); [assumption |].
    intros Ft. apply Z.leb_le in Ft. now rewrite Ft.
Qed.

Lemma cell_from_compress t l shown :
  nondecreasing l -> cell_from shown (compress l) t = cell_from shown l t.
Proof.
  destruct l as [| f r]; [reflexivity |].
  intros Hs. unfold cell_from. cbn [compress fold_left].
  apply (cell_from_drop_repeats t r f); [assumption |].
  intros Ft. apply Z.leb_le in Ft. now rewrite Ft.
Qed.

Lemma nondecreasing_with_frame_zero raw :
  nondecreasing raw -> Forall (fun f => 0 <= frame f) raw ->
  nondecreasing (with_frame_zero raw).
Proof.
  intros Hs Hn. destruct raw as [| f r]; simpl; [auto |].
  destruct (frame f =? 0); [exact Hs |].
  inversion_clear Hn. split; assumption.
Qed.

(** Normalization does not change what a layer shows: at every frame from 0
    on, the normalized sequence shows the cell the raw sequence shows, when
    the raw frame indices are not negative and never go down. *)
Theorem normalize_preserves_cells raw frames' t :
  nondecreasing raw ->
  Forall (fun f => 0 <= frame f) raw ->
  0 <= t ->
  normalize raw = Ok frames' ->
  cell_at frames' t = cell_at raw t.
Proof.
  intros Hs Hn Ht H. apply normalize_Ok_inv in H. destruct H as [_ ->].
  unfold cell_at, spec_normalize.
  rewrite cell_from_compress by now apply nondecreasing_with_frame_zero.
  destruct raw as [| f r]; simpl.
  - unfold cell_from. simpl. now destruct (0 <=? t).
  - destruct (frame f =? 0); [reflexivity |].
    unfold cell_from. cbn [fold_left].
    replace (frame (mkFrame 0 0) <=? t) with true by (symmetry; apply Z.leb_le; simpl; lia).
    reflexivity.
Qed.

Lemma normalize_preserves_cells_witness :
  nondecreasing [mkFrame 3 5; mkFrame 4 5; mkFrame 6 7] /\
  Forall (fun f => 0 <= frame f) [mkFrame 3 5; mkFrame 4 5; mkFrame 6 7] /\
  0 <= 5 /\
  normalize [mkFrame 3 5; mkFrame 4 5; mkFrame 6 7]
  = Ok [mkFrame 0 0; mkFrame 3 5; mkFrame 6 7] /\
  cell_at [mkFrame 0 0; mkFrame 3 5; mkFrame 6 7] 5
  = cell_at [mkFrame 3 5; mkFrame 4 5; mkFrame 6 7] 5.
Proof.
  assert (Hs : nondecreasing [mkFrame 3 5; mkFrame 4 5; mkFrame 6 7])
    by (simpl; repeat split; lia).
  assert (Hn : Forall (fun f => 0 <= frame f) [mkFrame 3 5; mkFrame 4 5; mkFrame 6 7])
    by (repeat constructor; simpl; lia).
  assert (Ht : 0 <= 5) by lia.
  split; [exact Hs | split; [exact Hn | split; [exact Ht | split; [reflexivity |]]]].
  exact (normalize_preserves_cells _ _ 5 Hs Hn Ht eq_refl).
Defined.

Lemma ascending_drop_repeats r : forall p c,
  ascending (p :: r) -> ascending (p :: drop_repeats c r).
Proof.
  induction r as [| f r IH]; intros p c Hs; [exact Hs |].
  destruct Hs as [Hpf Hs]. cbn [drop_repeats].
  destruct (cell f =? c).
  - apply IH. destruct r as [| g r]; [split; exact I |].
    destruct Hs as [Hfg Hs]. split; [lia | exact Hs].
  - split; [exact Hpf | now apply IH].
Qed.

(** Normalization keeps the order: raw frame indices that are not negative
    and go up strictly give normalized frame indices that go up strictly. *)
Theorem normalize_keeps_ascending raw frames' :
  ascending raw ->
  Forall (fun f => 0 <= frame f) raw ->
  normalize raw = Ok frames' ->
  ascending frames'.
Proof.
  intros Hs Hn H. apply normalize_Ok_inv in H. destruct H as [_ ->].
  unfold spec_normalize.
  assert (Hz : ascending (with_frame_zero raw)).
  { destruct raw as [| f r]; simpl; [auto |].
    destruct (frame f =? 0) eqn:E; [exact Hs |].
    apply Z.eqb_neq in E. inversion_clear Hn. split; [simpl; lia | exact Hs]. }
  destruct (with_frame_zero raw) as [| f r]; [exact I |].
  cbn [compress]. now apply ascending_drop_repeats.
Qed.

Lemma normalize_keeps_ascending_witness :
  ascending [mkFrame 3 5; mkFrame 4 5; mkFrame 6 7] /\
  Forall (fun f => 0 <= frame f) [mkFrame 3 5; mkFrame 4 5; mkFrame 6 7] /\
  ascending [mkFrame 0 0; mkFrame 3 5; mkFrame 6 7].
Proof.
  assert (Hs : ascending [mkFrame 3 5; mkFrame 4 5; mkFrame 6 7])
    by (simpl; repeat split; lia).
  assert (Hn : Forall (fun f => 0 <= frame f) [mkFrame 3 5; mkFrame 4 5; mkFrame 6 7])
    by (repeat constructor; simpl; lia).
  split; [exact Hs | split; [exact Hn |]].
  exact (normalize_keeps_ascending _ _ Hs Hn eq_refl).
Defined.

(** ** More on the STS reader *)

Lemma compress_last pre : forall y,
  exists q z, compress (pre ++ [y]) = q ++ [z] /\ cell z = cell y.
Proof.
  induction pre as [| w pre IH] using rev_ind; intros y.
  - exists [], y. split; reflexivity.
  - destruct (IH w) as (q & z & E & Hz).
    rewrite <- app_assoc. cbn [app]. rewrite compress_snoc2, E.
    destruct (cell y =? cell w) eqn:C.
    + apply Z.eqb_eq in C. exists q, z. rewrite app_nil_r. split; [reflexivity | congruence].
    + exists (q ++ [z]), y. split; reflexivity.
Qed.

(** One step of the inner loop keeps the list read so far compressed. *)
Lemma STS_cell_exact j pre s :
  STS_cell j (compress pre) s
  = (Ok (compress (pre ++ [mkFrame j (int_from_bytes (firstn 2 s))])), skipn 2 s).
Proof.
  unfold STS_cell, read_int, read, bind, ret, lift.
  destruct pre as [| p0 pre0]; [reflexivity |].
  destruct (@exists_last _ (p0 :: pre0)) as (pre & y & ->); [discriminate |].
  destruct (compress_last pre y) as (q & z & E & Hz).
  rewrite <- app_assoc. cbn [app]. rewrite compress_snoc2, E.
  destruct (Z.of_nat _ =? 0) eqn:E0;
    [apply Z.eqb_eq in E0; rewrite length_app in E0; simpl in E0; lia |].
  rewrite getitem_last. rewrite Hz. cbn [cell].
  rewrite (Z.eqb_sym (cell y)).
  destruct (int_from_bytes (firstn 2 s) =? cell y); cbn [negb].
  - now rewrite app_nil_r.
  - reflexivity.
Qed.

Lemma STS_cells_exact m : forall k pre s,
  for_each STS_cell (map Z.of_nat (seq k m)) (compress pre) s
  = (Ok (compress (pre ++ dense_from k m s)), skipn (2 * m) s).
Proof.
  induction m as [| m IH]; intros k pre s.
  - simpl. unfold ret. now rewrite app_nil_r.
  - cbn [seq map for_each dense_from].
    erewrite bind_Ok by apply STS_cell_exact.
    rewrite IH, <- app_assoc. cbn [app]. f_equal.
    rewrite skipn_skipn. f_equal. lia.
Qed.

(** The compression the STS reader does while it reads a layer's grid gives
    what compressing the whole dense grid afterwards gives, and the read
    moves on by two bytes per frame. *)
Theorem STS_inline_compression n s :
  for_each STS_cell (range n) [] s
  = (Ok (compress (dense_grid n s)), skipn (2 * n) s).
Proof. exact (STS_cells_exact n 0 [] s). Qed.

Lemma STS_grids_exact fc is_ : forall frames_list s,
  for_each (STS_grid fc) is_ frames_list s
  = (Ok (frames_list ++ grids_from (List.length is_) (Z.to_nat fc) s),
     skipn (List.length is_ * (2 * Z.to_nat fc)) s).
Proof.
  induction is_ as [| i is_ IH]; intros frames_list s.
  - simpl. unfold ret. now rewrite app_nil_r.
  - cbn [for_each List.length grids_from].
    erewrite bind_Ok; cycle 1.
    { unfold STS_grid. erewrite bind_Ok by apply (STS_cells_exact _ 0 []). reflexivity. }
    rewrite IH, <- app_assoc. cbn [app]. f_equal.
    rewrite skipn_skipn. f_equal. lia.
Qed.

Lemma byte_val_bound b : 0 <= byte_val b < 256.
Proof. unfold byte_val. pose proof (Byte.to_N_bounded b). lia. Qed.

Lemma int_from_bytes_2 s : 0 <= int_from_bytes (firstn 2 s) < 65536.
Proof.
  destruct s as [| a [| b s]]; cbn [firstn int_from_bytes].
  - lia.
  - pose proof (byte_val_bound a). lia.
  - pose proof (byte_val_bound a). pose proof (byte_val_bound b). lia.
Qed.

Lemma int_from_bytes_1 s : 0 <= int_from_bytes (firstn 1 s) < 256.
Proof.
  destruct s as [| a s]; cbn [firstn int_from_bytes].
  - lia.
  - pose proof (byte_val_bound a). lia.
Qed.

Lemma dense_from_in_sheet n : forall k s,
  Forall (in_sheet (Z.of_nat (k + n))) (dense_from k n s).
Proof.
  induction n as [| n IH]; intros k s; cbn [dense_from]; constructor.
  - split; [simpl; lia | apply int_from_bytes_2].
  - replace (k + S n)%nat with (S k + n)%nat by lia. apply IH.
Qed.

Lemma Forall_drop_repeats (P : Frame -> Prop) l : forall c,
  Forall P l -> Forall P (drop_repeats c l).
Proof.
  induction l as [| f l IH]; intros c H; [constructor |].
  inversion_clear H. cbn [drop_repeats].
  destruct (cell f =? c); [now apply IH | constructor; [assumption | now apply IH]].
Qed.

Lemma Forall_compress (P : Frame -> Prop) l : Forall P l -> Forall P (compress l).
Proof.
  destruct l as [| f l]; [constructor |].
  intros H. inversion_clear H. constructor; [assumption | now apply Forall_drop_repeats].
Qed.

Lemma Forall_spec_normalize (P : Frame -> Prop) raw :
  P (mkFrame 0 0) -> Forall P raw -> Forall P (spec_normalize raw).
Proof.
  intros H0 H. apply Forall_compress. unfold with_frame_zero.
  destruct raw as [| f r]; [repeat constructor; assumption |].
  destruct (frame f =? 0); [assumption | constructor; assumption].
Qed.

Lemma grids_from_in_sheet m n : forall s,
  Forall (Forall (in_sheet (Z.of_nat n))) (grids_from m n s).
Proof.
  induction m as [| m IH]; intros s; cbn [grids_from]; constructor.
  - apply Forall_compress. apply (dense_from_in_sheet n 0).
  - apply IH.
Qed.

Lemma length_grids_from m n s : List.length (grids_from m n s) = m.
Proof. revert s. induction m as [| m IH]; intros s; simpl; [reflexivity | now rewrite IH]. Qed.

(** What [Timesheet.__init__] makes of each layer, layer by layer. *)
Lemma normalize_layers_Forall2 ls : forall ls',
  normalize_layers ls = Ok ls' ->
  Forall2 (fun l l' => name l' = name l /\ frames l <> [] /\
                       frames l' = spec_normalize (frames l)) ls ls'.
Proof.
  induction ls as [| l ls IH]; intros ls'; simpl.
  - intros [= <-]. constructor.
  - destruct (normalize (frames l)) as [fr | e] eqn:E; cbn [rbind]; [| discriminate].
    destruct (normalize_layers ls) as [rest | e] eqn:E'; cbn [rbind]; [| discriminate].
    intros [= <-]. apply normalize_Ok_inv in E. destruct E as [Hne ->].
    constructor; [repeat split; assumption | now apply IH].
Qed.

Lemma read_eq n s : read n s = (Ok (firstn n s), skipn n s).
Proof. reflexivity. Qed.

Lemma read_int_eq n s : read_int n s = (Ok (int_from_bytes (firstn n s)), skipn n s).
Proof. reflexivity. Qed.

(** Replaces what a read returned by what it is. *)
Ltac inv_read :=
  match goal with
  | Hr : read _ _ = (Ok ?a, ?s) |- _ =>
      rewrite read_eq in Hr;
      let Ea := fresh in let Es := fresh in
      assert (Ea : a = _) by (injection Hr; intros; symmetry; eassumption);
      assert (Es : s = _) by (injection Hr; intros; symmetry; eassumption);
      clear Hr; subst a s
  | Hr : read_int _ _ = (Ok ?a, ?s) |- _ =>
      rewrite read_int_eq in Hr;
      let Ea := fresh in let Es := fresh in
      assert (Ea : a = _) by (injection Hr; intros; symmetry; eassumption);
      assert (Es : s = _) by (injection Hr; intros; symmetry; eassumption);
      clear Hr; subst a s
  end.

Section STS_more.

Variable shift_jis : list byte -> option string.

Lemma getitem_In {A : Type} (l : list A) i a : getitem l i = Ok a -> In a l.
Proof.
  unfold getitem.
  destruct ((0 <=? _) && (_ <? _)); [| discriminate].
  destruct (nth_error l _) eqn:E; [| discriminate].
  intros [= <-]. eapply nth_error_In. eassumption.
Qed.

(** The second loop adds one layer per index, each with a grid of the
    first loop. *)
Lemma STS_layers_shape frames_list is_ : forall layers s layers' s',
  for_each (STS_layer shift_jis frames_list) is_ layers s = (Ok layers', s') ->
  exists news,
    layers' = layers ++ news /\ List.length news = List.length is_ /\
    Forall (fun l => In (frames l) frames_list) news.
Proof.
  induction is_ as [| i is_ IH]; intros layers s layers' s' H.
  - injection H as <- _. exists []. rewrite app_nil_r. repeat split; constructor.
  - cbn [for_each] in H. inv_bind H.
    unfold STS_layer in Hm. do 2 inv_bind Hm.
    destruct (shift_jis a1) as [nm |]; [| discriminate].
    inv_bind Hm. injection Hm as <- _.
    apply lift_inv_Ok in Hm2. apply getitem_In in Hm2.
    destruct (IH _ _ _ _ H) as (news & -> & L & F).
    exists (mkLayer nm a2 :: news). rewrite <- app_assoc. repeat split.
    + simpl. now rewrite L.
    + constructor; assumption.
Qed.

Opaque firstn skipn.

(** Whatever the bytes, a Timesheet the STS reader returns has the frame
    count of bytes 19-20 (below 65536), as many layers as byte 18 says, and
    in every layer only frames inside the sheet ([0 <= frame < frame_count])
    with cells that fit two bytes. *)
Theorem STS_init_in_sheet path content ts rest :
  STS_init shift_jis path content = (Ok ts, rest) ->
  frame_count ts = int_from_bytes (firstn 2 (skipn 19 content)) /\
  0 <= frame_count ts < 65536 /\
  Z.of_nat (List.length (layers ts)) = int_from_bytes (firstn 1 (skipn 18 content)) /\
  Forall (fun l => Forall (in_sheet (frame_count ts)) (frames l)) (layers ts).
Proof.
  unfold STS_init. intros H.
  inv_bind H. inv_read. inv_bind H. inv_read.
  destruct (utf8_decode _); [| discriminate].
  destruct (negb _); [discriminate |].
  inv_bind H. inv_read. inv_bind H. inv_read. inv_bind H. inv_read.
  rewrite !skipn_skipn in H.
  change (2 + 2 + (1 + 17 + 1))%nat with 23%nat in H.
  change (1 + 17 + 1)%nat with 19%nat in H.
  change (17 + 1)%nat with 18%nat in H.
  set (fc := int_from_bytes (firstn 2 (skipn 19 content))) in *.
  set (lc := int_from_bytes (firstn 1 (skipn 18 content))) in *.
  inv_bind H. rewrite STS_grids_exact in Hm.
  assert (Ea : a = grids_from (List.length (range (Z.to_nat lc))) (Z.to_nat fc)
                              (skipn 23 content)) by (cbn [app] in Hm; congruence).
  clear Hm. rewrite length_range in Ea. subst a.
  inv_bind H.
  apply STS_layers_shape in Hm. destruct Hm as (news & -> & L & F).
  cbn [app] in H. rewrite length_range in L.
  apply lift_inv_Ok in H. unfold Timesheet_init in H.
  destruct (normalize_layers news) as [ls' |] eqn:En; cbn [rbind] in H; [| discriminate].
  injection H as <-. cbn [frame_count layers].
  apply normalize_layers_Forall2 in En.
  assert (Hfc : 0 <= fc < 65536) by apply int_from_bytes_2.
  assert (Hlc : 0 <= lc < 256) by apply int_from_bytes_1.
  split; [reflexivity | split; [assumption | split]].
  - rewrite <- (Forall2_length En), L. lia.
  - clear L. induction En as [| lay lay' news ls' (Hn & Hne & Hf) En IH]; constructor.
    + inversion_clear F as [| ? ? Hin _].
      rewrite Hf.
      pose proof (grids_from_in_sheet (Z.to_nat lc) (Z.to_nat fc) (skipn 23 content)) as G.
      rewrite Forall_forall in G. specialize (G _ Hin).
      rewrite Z2Nat.id in G by lia.
      apply Forall_spec_normalize; [| exact G].
      destruct (frames lay) as [| f0 r0]; [congruence |].
      inversion_clear G as [| ? ? [Hf0 _] _]. split; simpl; lia.
    + inversion_clear F. now apply IH.
Qed.

Transparent firstn skipn.

End STS_more.

Lemma STS_init_in_sheet_witness :
  STS_init shift_jis_ascii "sheets/cut.sts" (sts_sample x01 [x41])
  = (Ok sts_sample_sheet, []) /\
  frame_count sts_sample_sheet = 4 /\
  Forall (fun l => Forall (in_sheet (frame_count sts_sample_sheet)) (frames l))
         (layers sts_sample_sheet).
Proof.
  assert (H : STS_init shift_jis_ascii "sheets/cut.sts" (sts_sample x01 [x41])
              = (Ok sts_sample_sheet, [])) by (vm_compute; reflexivity).
  split; [exact H |].
  destruct (STS_init_in_sheet shift_jis_ascii _ _ _ _ H) as (Hfc & _ & _ & Hl).
  split; [exact Hfc | exact Hl].
Defined.

(** *** Files that are whole *)

Lemma dense_from_app n : forall k g rest,
  List.length g = (2 * n)%nat -> dense_from k n (g ++ rest) = dense_from k n g.
Proof.
  induction n as [| n IH]; intros k g rest Hg; [reflexivity |].
  destruct g as [| a [| b g]]; simpl in Hg; try lia.
  cbn [dense_from app firstn skipn]. f_equal. apply IH. lia.
Qed.

Lemma grids_from_records n records : forall rest,
  Forall (fun r => List.length (grid r) = (2 * n)%nat) records ->
  grids_from (List.length records) n (flat_map grid records ++ rest)
  = map (fun r => compress (dense_grid n (grid r))) records /\
  skipn (List.length records * (2 * n)) (flat_map grid records ++ rest) = rest.
Proof.
  induction records as [| r records IH]; intros rest H.
  - split; reflexivity.
  - inversion_clear H as [| ? ? Hr Hrest].
    cbn [flat_map List.length grids_from map]. rewrite <- app_assoc.
    destruct (IH rest Hrest) as [IH1 IH2].
    assert (Hskip : skipn (2 * n) (grid r ++ flat_map grid records ++ rest)
                    = flat_map grid records ++ rest).
    { rewrite skipn_app, skipn_all2 by lia.
      replace (2 * n - List.length (grid r))%nat with 0%nat by lia. reflexivity. }
    split.
    + f_equal.
      * unfold dense_grid. now rewrite dense_from_app.
      * now rewrite Hskip.
    + replace (S (List.length records) * (2 * n))%nat
        with (List.length records * (2 * n) + 2 * n)%nat by lia.
      rewrite <- skipn_skipn, Hskip. exact IH2.
Qed.

Lemma getitem_skipn {A : Type} (l : list A) k x rest :
  skipn k l = x :: rest -> getitem l (Z.of_nat k) = Ok x /\ skipn (S k) l = rest.
Proof.
  intros H.
  assert (Hn : nth_error l k = Some x).
  { rewrite <- (Nat.add_0_r k), <- nth_error_skipn, H. reflexivity. }
  split.
  - unfold getitem.
    assert (k < List.length l)%nat by (apply nth_error_Some; congruence).
    replace (Z.of_nat k <? 0) with false by (symmetry; apply Z.ltb_ge; lia).
    replace (0 <=? Z.of_nat k) with true by (symmetry; apply Z.leb_le; lia).
    replace (Z.of_nat k <? Z.of_nat (List.length l)) with true
      by (symmetry; apply Z.ltb_lt; lia).
    cbn [andb]. now rewrite Nat2Z.id, Hn.
  - rewrite (skipn_nth_error _ _ _ Hn) in H. congruence.
Qed.

(** Nothing is left to normalize in a grid that was compressed while it was
    read. *)
Lemma normalize_compressed_grid n s :
  n <> 0%nat ->
  normalize (compress (dense_grid n s)) = Ok (compress (dense_grid n s)).
Proof.
  intros Hn. destruct n as [| n]; [congruence |].
  unfold dense_grid. cbn [dense_from compress].
  rewrite normalize_nonempty. f_equal.
  change (mkFrame (Z.of_nat 0) (int_from_bytes (firstn 2 s))
            :: drop_repeats (cell (mkFrame (Z.of_nat 0) (int_from_bytes (firstn 2 s))))
                            (dense_from 1 n (skipn 2 s)))
    with (compress (mkFrame 0 (int_from_bytes (firstn 2 s)) :: dense_from 1 n (skipn 2 s))).
  unfold spec_normalize. rewrite with_frame_zero_fixed.
  - apply compress_fixed, compress_no_adjacent.
  - cbn [compress]. unfold starts_at_zero. eauto.
Qed.

Lemma normalize_layers_compressed ls :
  Forall (fun l => exists n s, n <> 0%nat /\ frames l = compress (dense_grid n s)) ls ->
  normalize_layers ls = Ok ls.
Proof.
  induction 1 as [| l ls (n & s & Hn & Hf) Hls IH]; [reflexivity |].
  cbn [normalize_layers]. rewrite Hf, normalize_compressed_grid by assumption.
  cbn [rbind]. rewrite IH. cbn [rbind]. destruct l as [nm fr]. simpl in Hf. now rewrite Hf.
Qed.

Section STS_whole.

Variable shift_jis : list byte -> option string.

Lemma STS_layers_records frames_list trailer records : forall layer_names k layers,
  Forall2 (fun r nm => shift_jis (name_bytes r) = Some nm) records layer_names ->
  Forall (fun r => Z.to_nat (byte_val (length_byte r)) = List.length (name_bytes r))
         records ->
  forall n, skipn k frames_list = map (fun r => compress (dense_grid n (grid r))) records ->
  for_each (STS_layer shift_jis frames_list)
           (map Z.of_nat (seq k (List.length records))) layers
           (flat_map (fun r => length_byte r :: name_bytes r) records ++ trailer)
  = (Ok (layers ++ map (fun p => record_layer n (fst p) (snd p))
                       (combine records layer_names)),
     trailer).
Proof.
  induction records as [| r records IH]; intros layer_names k layers Hdec Hlen n Hfl.
  - simpl. unfold ret. now rewrite app_nil_r.
  - inversion Hdec as [| ? nm ? nms Hr Hrest]; subst.
    inversion_clear Hlen as [| ? ? Hl Hlrest].
    cbn [map] in Hfl. apply getitem_skipn in Hfl. destruct Hfl as [Hget Hskip].
    cbn [List.length seq map for_each flat_map combine fst snd].
    rewrite <- app_assoc, <- app_comm_cons.
    erewrite bind_Ok by (apply STS_layer_record; eassumption).
    rewrite (IH nms (S k) _ Hrest Hlrest n Hskip), <- app_assoc. reflexivity.
Qed.

(** A whole file reads back: for a file laid out as [sts_file], whose layer
    count byte counts the records, whose grids have two bytes per frame and
    whose names have the length their length byte says and decode, the
    reader returns the Timesheet with the frame count of the file and, layer
    by layer, the decoded name and the compressed grid; what follows the last
    name record is left unread. *)
Theorem STS_reads_whole_file path reserved lc fc_low fc_high reserved1 reserved2
        records layer_names trailer :
  let fc := byte_val fc_low + 256 * byte_val fc_high in
  byte_val lc = Z.of_nat (List.length records) ->
  Forall (fun r => List.length (grid r) = (2 * Z.to_nat fc)%nat) records ->
  Forall (fun r => Z.to_nat (byte_val (length_byte r)) = List.length (name_bytes r))
         records ->
  Forall2 (fun r nm => shift_jis (name_bytes r) = Some nm) records layer_names ->
  records = [] \/ 0 < fc ->
  STS_init shift_jis path
           (sts_file reserved lc fc_low fc_high reserved1 reserved2 records trailer)
  = (Ok (mkTimesheet path (basename path) fc
                     (map (fun p => record_layer (Z.to_nat fc) (fst p) (snd p))
                          (combine records layer_names))),
     trailer).
Proof.
  intros fc Hlc Hgrid Hlen Hdec Hfc.
  unfold STS_init, sts_file.
  erewrite bind_Ok by reflexivity. erewrite bind_Ok by reflexivity.
  change (firstn 17 (skipn 1 (reserved :: magic_bytes ++ ?x))) with magic_bytes.
  rewrite utf8_decode_magic.
  change (text_eqb _ _) with true. cbn [negb].
  erewrite bind_Ok by reflexivity. erewrite bind_Ok by reflexivity.
  erewrite bind_Ok by reflexivity.
  cbn [magic_bytes app skipn firstn int_from_bytes].
  replace (byte_val lc + 256 * 0) with (byte_val lc) by lia.
  replace (byte_val fc_low + 256 * (byte_val fc_high + 256 * 0)) with fc by (unfold fc; lia).
  rewrite Hlc, Nat2Z.id.
  assert (Hfc0 : 0 <= fc)
    by (unfold fc; pose proof (byte_val_bound fc_low); pose proof (byte_val_bound fc_high); lia).
  destruct (grids_from_records (Z.to_nat fc) records
              (flat_map (fun r => length_byte r :: name_bytes r) records ++ trailer) Hgrid)
    as [Hgrids Hskip].
  erewrite bind_Ok; cycle 1.
  { rewrite STS_grids_exact, length_range, Hgrids, Hskip. reflexivity. }
  cbn [app]. unfold range.
  erewrite bind_Ok; cycle 1.
  { apply (STS_layers_records _ trailer records layer_names 0 [] Hdec Hlen (Z.to_nat fc)).
    reflexivity. }
  cbn [app]. unfold lift, Timesheet_init.
  rewrite normalize_layers_compressed; [reflexivity |].
  apply Forall_forall. intros l Hin. apply in_map_iff in Hin.
  destruct Hin as ([r nm] & <- & Hin).
  exists (Z.to_nat fc), (grid r). split; [| reflexivity].
  destruct Hfc as [-> | Hpos]; [destruct layer_names; contradiction | lia].
Qed.

End STS_whole.

Lemma STS_reads_whole_file_witness :
  STS_init shift_jis_ascii "sheets/cut.sts"
           (sts_file x00 x02 x03 x00 x00 x00
                     [mkRecord [x05; x00; x05; x00; x07; x00] x01 [x41];
                      mkRecord [x01; x01; x00; x00; x00; x00] x02 [x42; x43]]
                     [xff])
  = (Ok (mkTimesheet "sheets/cut.sts" (basename "sheets/cut.sts")
                     (byte_val x03 + 256 * byte_val x00)
                     (map (fun p => record_layer (Z.to_nat (byte_val x03 + 256 * byte_val x00))
                                                 (fst p) (snd p))
                          (combine [mkRecord [x05; x00; x05; x00; x07; x00] x01 [x41];
                                    mkRecord [x01; x01; x00; x00; x00; x00] x02 [x42; x43]]
                                   ["A"; "BC"]))),
     [xff]).
Proof.
  apply (STS_reads_whole_file shift_jis_ascii "sheets/cut.sts" x00 x02 x03 x00 x00 x00
           [mkRecord [x05; x00; x05; x00; x07; x00] x01 [x41];
            mkRecord [x01; x01; x00; x00; x00; x00] x02 [x42; x43]]
           ["A"; "BC"] [xff]).
  - reflexivity.
  - repeat constructor.
  - repeat constructor.
  - repeat constructor.
  - right. reflexivity.
Defined.

(** *** Streams that end early *)

Lemma grids_from_dense m n : forall s,
  Forall (fun g => exists s', g = compress (dense_grid n s')) (grids_from m n s).
Proof.
  induction m as [| m IH]; intros s; cbn [grids_from]; constructor.
  - now exists s.
  - apply IH.
Qed.

(** What a cell reads as once the stream has ended, and what a name does. *)
Lemma dense_from_eof n : forall k,
  dense_from k n [] = map (fun j => mkFrame (Z.of_nat j) 0) (seq k n).
Proof.
  induction n as [| n IH]; intros k; [reflexivity |].
  cbn [dense_from seq map firstn skipn int_from_bytes]. f_equal. apply IH.
Qed.

Lemma name_records_eof m : name_records m [] = repeat [] m.
Proof. induction m as [| m IH]; [reflexivity |]. cbn. f_equal. exact IH. Qed.

Section STS_short.

Variable shift_jis : list byte -> option string.

(** The second loop on any stream: it takes the name records as
    [name_records] cuts them, and fails only where the codec does. *)
Lemma STS_layers_lenient frames_list m : forall k layer_names layers s,
  (k + m <= List.length frames_list)%nat ->
  Forall2 (fun nb nm => shift_jis nb = Some nm) (name_records m s) layer_names ->
  for_each (STS_layer shift_jis frames_list) (map Z.of_nat (seq k m)) layers s
  = (Ok (layers ++ map (fun p => mkLayer (snd p) (fst p))
                       (combine (firstn m (skipn k frames_list)) layer_names)),
     after_name_records m s).
Proof.
  induction m as [| m IH]; intros k layer_names layers s Hk Hdec.
  - simpl. unfold ret. now rewrite app_nil_r.
  - destruct layer_names as [| nm nms]; [inversion Hdec |].
    change (name_records (S m) s)
      with (firstn (Z.to_nat (int_from_bytes (firstn 1 s))) (skipn 1 s)
              :: name_records m (skipn (Z.to_nat (int_from_bytes (firstn 1 s))) (skipn 1 s)))
      in Hdec.
    apply Forall2_cons_iff in Hdec. destruct Hdec as [Hnm Hrest].
    destruct (skipn k frames_list) as [| g rest] eqn:Hskip.
    { apply (f_equal (@List.length _)) in Hskip. rewrite length_skipn in Hskip.
      simpl in Hskip. lia. }
    destruct (getitem_skipn _ _ _ _ Hskip) as [Hget Hnext].
    rewrite firstn_cons.
    cbn [seq map for_each after_name_records combine fst snd].
    erewrite bind_Ok; cycle 1.
    { unfold STS_layer.
      erewrite bind_Ok by apply read_int_eq.
      erewrite bind_Ok by apply read_eq.
      rewrite Hnm.
      erewrite bind_Ok by (unfold lift; rewrite Hget; reflexivity).
      reflexivity. }
    rewrite (IH (S k) nms _ _ ltac:(lia) Hrest), Hnext, <- app_assoc. reflexivity.
Qed.

(** C2, as the code has it.  A file too short for the reserved byte and the
    magic makes the reader raise, with nothing returned.  Past the magic a
    short read is not noticed.  Whatever follows the magic, the counts are
    the values of the bytes that are there (0 when there are none), every
    grid is read with the bytes that are there (a cell past the end of the
    stream is 0), every name record is taken as [name_records] cuts it (a
    name past the end of the stream is the decoding of no bytes, a name cut
    short is the decoding of the bytes that are left), and when those names
    decode the reader returns the Timesheet with these counts, grids and
    names. *)
Theorem STS_short_read path :
  (forall content,
      (List.length content < 18)%nat ->
      exists e, STS_init shift_jis path content = (Raise e, [])) /\
  (forall reserved body layer_names,
      let lc := Z.to_nat (int_from_bytes (firstn 1 body)) in
      let fc := Z.to_nat (int_from_bytes (firstn 2 (skipn 1 body))) in
      let names_at := skipn (lc * (2 * fc)) (skipn 5 body) in
      Forall2 (fun nb nm => shift_jis nb = Some nm) (name_records lc names_at) layer_names ->
      lc = 0%nat \/ fc <> 0%nat ->
      STS_init shift_jis path (reserved :: magic_bytes ++ body)
      = (Ok (mkTimesheet path (basename path) (Z.of_nat fc)
               (map (fun p => mkLayer (snd p) (fst p))
                    (combine (grids_from lc fc (skipn 5 body)) layer_names))),
         after_name_records lc names_at)) /\
  (forall k n, dense_from k n [] = map (fun j => mkFrame (Z.of_nat j) 0) (seq k n)) /\
  (forall m, name_records m [] = repeat [] m).
Proof.
  split; [| split; [| split; [intros k n; apply dense_from_eof | exact name_records_eof]]].
  - intros content Hlen. rewrite STS_init_without_magic.
    + rewrite skipn_skipn.
      replace (skipn (17 + 1) content) with (@nil byte)
        by (symmetry; apply skipn_all2; lia).
      eexists. reflexivity.
    + intros E. apply (f_equal (@List.length byte)) in E.
      rewrite length_firstn, length_skipn in E.
      change (List.length magic_bytes) with 17%nat in E. lia.
  - intros reserved body layer_names lc fc names_at Hdec Hfc.
    unfold STS_init.
    erewrite bind_Ok by reflexivity. erewrite bind_Ok by reflexivity.
    change (firstn 17 (skipn 1 (reserved :: magic_bytes ++ body))) with magic_bytes.
    change (skipn 17 (skipn 1 (reserved :: magic_bytes ++ body))) with body.
    rewrite utf8_decode_magic.
    change (text_eqb _ _) with true. cbn [negb].
    erewrite bind_Ok by apply read_int_eq.
    erewrite bind_Ok by apply read_int_eq.
    erewrite bind_Ok by apply read_eq.
    rewrite !skipn_skipn. change (2 + (2 + 1))%nat with 5%nat.
    fold lc. 
    assert (Hfcz : int_from_bytes (firstn 2 (skipn 1 body)) = Z.of_nat fc).
    { unfold fc. rewrite Z2Nat.id; [reflexivity | apply int_from_bytes_nonneg]. }
    rewrite Hfcz.
    erewrite bind_Ok; cycle 1.
    { rewrite STS_grids_exact, length_range, Nat2Z.id. reflexivity. }
    cbn [app]. unfold range. fold names_at.
    erewrite bind_Ok; cycle 1.
    { apply (STS_layers_lenient _ lc 0 layer_names []).
      - rewrite length_grids_from. lia.
      - exact Hdec. }
    cbn [app skipn].
    rewrite <- (length_grids_from lc fc (skipn 5 body)) at 1. rewrite firstn_all.
    unfold lift, Timesheet_init.
    rewrite normalize_layers_compressed; [reflexivity |].
    apply Forall_forall. intros l Hin. apply in_map_iff in Hin.
    destruct Hin as ([g nm] & <- & Hin). apply in_combine_l in Hin.
    pose proof (grids_from_dense lc fc (skipn 5 body)) as G.
    rewrite Forall_forall in G. destruct (G _ Hin) as (s' & ->).
    exists fc, s'. split; [| reflexivity].
    destruct Hfc as [H0 | Hpos]; [| assumption].
    rewrite H0 in Hin. contradiction.
Qed.

End STS_short.

Lemma STS_short_read_witness :
  (exists e, STS_init shift_jis_ascii "cut.sts" [x00; x53; x68; x69] = (Raise e, [])) /\
  STS_init shift_jis_ascii "cut.sts" sts_truncated
  = (Ok (mkTimesheet "cut.sts" "cut.sts" 4 [mkLayer EmptyString [mkFrame 0 5; mkFrame 2 0]]),
     []) /\
  STS_init shift_jis_ascii "cut.sts" (sts_sample x03 [x41; x42])
  = (Ok (mkTimesheet "cut.sts" "cut.sts" 4 [mkLayer "AB" [mkFrame 0 5; mkFrame 2 7]]), []).
Proof.
  destruct (STS_short_read shift_jis_ascii "cut.sts") as (Hshort & Hlater & _).
  split; [| split].
  - apply Hshort. simpl. lia.
  - apply (Hlater x00 [x01; x04; x00; x00; x00; x05; x00; x05] [EmptyString]).
    + repeat constructor.
    + right. discriminate.
  - apply (Hlater x00 [x01; x04; x00; x00; x00; x05; x00; x05; x00; x07; x00; x07; x00;
                       x03; x41; x42] ["AB"]).
    + repeat constructor.
    + right. discriminate.
Defined.

(** ** More on the TDTS reader *)

Lemma find_none {A : Type} (p : A -> bool) l :
  Forall (fun x => p x = false) l -> find p l = None.
Proof.
  induction 1 as [| x l Hx Hl IH]; simpl; [reflexivity |]. now rewrite Hx.
Qed.

(** A table without a field 4, or without a header 4, is no error: the
    Timesheet is made, with the table's duration and no layer, and nothing is
    printed. *)
Theorem TDTS_without_field_4 path timeSheet_name timeTable fs err :
  fields timeTable = Some fs ->
  Forall (fun f => fieldId f <> 4) fs \/
  Forall (fun h => header_fieldId h <> 4) (timeTableHeaders timeTable) ->
  TDTS_init path timeSheet_name timeTable err
  = (Ok (mkTimesheet path (TDTS_name path timeSheet_name timeTable) (duration timeTable) []),
     err).
Proof.
  intros Hf Hnone.
  assert (Hread : TDTS_read timeTable err = (Ok ([], duration timeTable), err));
    [| unfold TDTS_init; erewrite bind_Ok by exact Hread; reflexivity].
  unfold TDTS_read, table_fields. rewrite Hf.
  erewrite bind_Ok by reflexivity.
  assert (E : match option_map tracks (find (fun f => fieldId f =? 4) fs),
                    header_names 4 (timeTableHeaders timeTable) with
              | Some tracks_, Some names_ => for_each (TDTS_track names_) tracks_ []
              | _, _ => ret []
              end = ret []).
  { destruct Hnone as [H | H].
    - rewrite find_none; [reflexivity |].
      eapply Forall_impl; [| exact H]. intros f Hne. now apply Z.eqb_neq.
    - unfold header_names.
      rewrite (find_none (fun h => header_fieldId h =? 4) (timeTableHeaders timeTable)).
      + destruct (find (fun f => fieldId f =? 4) fs); reflexivity.
      + eapply Forall_impl; [| exact H]. intros h Hne. now apply Z.eqb_neq. }
  rewrite E. reflexivity.
Qed.

Lemma TDTS_without_field_4_witness :
  TDTS_init "cut.tdts" "c001"
            (mkTable "T" 24 (Some [mkField 3 [mkTrack 0 [mkEntry 0 "1"]]]) [mkHeader 4 ["A"]])
            []
  = (Ok (mkTimesheet "cut.tdts"
           (TDTS_name "cut.tdts" "c001"
              (mkTable "T" 24 (Some [mkField 3 [mkTrack 0 [mkEntry 0 "1"]]])
                       [mkHeader 4 ["A"]]))
           24 []), []).
Proof.
  apply (TDTS_without_field_4 "cut.tdts" "c001"
           (mkTable "T" 24 (Some [mkField 3 [mkTrack 0 [mkEntry 0 "1"]]]) [mkHeader 4 ["A"]])
           [mkField 3 [mkTrack 0 [mkEntry 0 "1"]]] []).
  - reflexivity.
  - left. repeat constructor. discriminate.
Defined.

Lemma TDTS_tracks_exact names_ tracks_ : forall layer_names layers err,
  Forall2 (fun t nm => getitem names_ (trackNo t) = Ok nm) tracks_ layer_names ->
  for_each (TDTS_track names_) tracks_ layers err
  = (Ok (layers ++ map (fun p => mkLayer (snd p) (flat_map TDTS_raw_entry (track_frames (fst p))))
                       (combine tracks_ layer_names)),
     err ++ flat_map (fun t => flat_map TDTS_diagnostic (track_frames t)) tracks_).
Proof.
  induction tracks_ as [| t tracks_ IH]; intros layer_names layers err H.
  - simpl. unfold ret. now rewrite !app_nil_r.
  - inversion H as [| ? nm ? nms Ht Hrest]; subst.
    cbn [for_each combine map flat_map fst snd].
    erewrite bind_Ok by (rewrite TDTS_track_spec, Ht; reflexivity).
    rewrite (IH nms _ _ Hrest), <- !app_assoc. reflexivity.
Qed.

Lemma normalize_layers_nonempty ls :
  Forall (fun l => frames l <> []) ls ->
  normalize_layers ls = Ok (map (fun l => mkLayer (name l) (spec_normalize (frames l))) ls).
Proof.
  induction 1 as [| l ls Hl Hls IH]; [reflexivity |].
  cbn [normalize_layers map].
  destruct (frames l) as [| f r] eqn:E; [congruence |].
  rewrite normalize_nonempty. cbn [rbind]. now rewrite IH.
Qed.

Lemma combine_fst_In {A B : Type} (l : list A) (l' : list B) p :
  In p (combine l l') -> In (fst p) l.
Proof. destruct p as [a b]. apply in_combine_l. Qed.

(** What the TDTS reader makes of a table that has its field 4 and its
    header 4, with a name for every track and at least one entry left in
    every track: one layer per track, in the order of the tracks, named by
    the track number, holding the normal form of the track's mapped entries;
    one traceback is printed per value that is no integer. *)
Theorem TDTS_reads_table path timeSheet_name timeTable fs field names_ layer_names err :
  fields timeTable = Some fs ->
  find (fun f => fieldId f =? 4) fs = Some field ->
  header_names 4 (timeTableHeaders timeTable) = Some names_ ->
  Forall2 (fun t nm => getitem names_ (trackNo t) = Ok nm) (tracks field) layer_names ->
  Forall (fun t => flat_map TDTS_raw_entry (track_frames t) <> []) (tracks field) ->
  TDTS_init path timeSheet_name timeTable err
  = (Ok (mkTimesheet path (TDTS_name path timeSheet_name timeTable) (duration timeTable)
           (map (fun p => track_layer TDTS_raw_entry (fst p) (snd p))
                (combine (tracks field) layer_names))),
     err ++ flat_map (fun t => flat_map TDTS_diagnostic (track_frames t)) (tracks field)).
Proof.
  intros Hf Hfield Hnames Hlook Hne.
  unfold TDTS_init. erewrite bind_Ok; cycle 1.
  { unfold TDTS_read, table_fields. rewrite Hf. erewrite bind_Ok by reflexivity.
    rewrite Hfield, Hnames. cbn [option_map].
    erewrite bind_Ok by (apply TDTS_tracks_exact; eassumption). reflexivity. }
  cbn [fst snd app]. unfold lift, Timesheet_init.
  rewrite normalize_layers_nonempty.
  - cbn [rbind]. rewrite map_map. reflexivity.
  - apply Forall_forall. intros l Hin. apply in_map_iff in Hin.
    destruct Hin as (p & <- & Hin). apply combine_fst_In in Hin.
    rewrite Forall_forall in Hne. exact (Hne _ Hin).
Qed.

Lemma TDTS_reads_table_witness :
  TDTS_init "cut.tdts" "c001"
            (mkTable "T" 24
               (Some [mkField 0 []; mkField 4 [mkTrack 1 tdts_sample_entries]])
               [mkHeader 4 ["A"; "B"]])
            []
  = (Ok (mkTimesheet "cut.tdts"
           (TDTS_name "cut.tdts" "c001"
              (mkTable "T" 24
                 (Some [mkField 0 []; mkField 4 [mkTrack 1 tdts_sample_entries]])
                 [mkHeader 4 ["A"; "B"]]))
           24
           (map (fun p => track_layer TDTS_raw_entry (fst p) (snd p))
                (combine [mkTrack 1 tdts_sample_entries] ["B"]))),
     [] ++ flat_map (fun t => flat_map TDTS_diagnostic (track_frames t))
                    [mkTrack 1 tdts_sample_entries]).
Proof.
  apply (TDTS_reads_table "cut.tdts" "c001"
           (mkTable "T" 24
              (Some [mkField 0 []; mkField 4 [mkTrack 1 tdts_sample_entries]])
              [mkHeader 4 ["A"; "B"]])
           [mkField 0 []; mkField 4 [mkTrack 1 tdts_sample_entries]]
           (mkField 4 [mkTrack 1 tdts_sample_entries]) ["A"; "B"] ["B"] []).
  - reflexivity.
  - reflexivity.
  - reflexivity.
  - repeat constructor.
  - repeat constructor. discriminate.
Defined.

(** *** Values that do not parse *)

(** One layer without frames is enough for the constructor to raise. *)
Lemma normalize_layers_empty_layer ls :
  Exists (fun l => frames l = []) ls -> normalize_layers ls = Raise IndexError.
Proof.
  induction ls as [| l ls IH]; intros H; [inversion H |].
  cbn [normalize_layers].
  destruct (frames l) as [| f r] eqn:E; [reflexivity |].
  rewrite normalize_nonempty. cbn [rbind].
  inversion_clear H as [? ? H0 | ? ? H0]; [congruence |].
  now rewrite (IH H0).
Qed.

Lemma flat_map_nil {A B : Type} (f : A -> list B) l :
  Forall (fun x => f x = []) l -> flat_map f l = [].
Proof. induction 1 as [| x l Hx Hl IH]; simpl; [reflexivity |]. now rewrite Hx, IH. Qed.

Lemma TDTS_read_exact timeTable fs field names_ layer_names err :
  fields timeTable = Some fs ->
  find (fun f => fieldId f =? 4) fs = Some field ->
  header_names 4 (timeTableHeaders timeTable) = Some names_ ->
  Forall2 (fun t nm => getitem names_ (trackNo t) = Ok nm) (tracks field) layer_names ->
  TDTS_read timeTable err
  = (Ok (map (fun p => mkLayer (snd p) (flat_map TDTS_raw_entry (track_frames (fst p))))
             (combine (tracks field) layer_names),
         duration timeTable),
     err ++ flat_map (fun t => flat_map TDTS_diagnostic (track_frames t)) (tracks field)).
Proof.
  intros Hf Hfield Hnames Hlook.
  unfold TDTS_read, table_fields. rewrite Hf. erewrite bind_Ok by reflexivity.
  rewrite Hfield, Hnames. cbn [option_map].
  erewrite bind_Ok by (apply TDTS_tracks_exact; eassumption). reflexivity.
Qed.

(** C8.  For a table with its field 4, its header 4 and a name for every
    track, the TDTS reader's [__read] returns, whatever the values: one layer
    per track, holding entry by entry what the mapping gives (the null-cell
    symbol gives [(frame, 0)], a value [int] reads gives [(frame, int(value))],
    a value [int] rejects gives nothing), and one traceback per value [int]
    rejects.  That is the claim.  But when the values of a track are all
    rejected (or the track has none) its layer is left without frames, the
    constructor raises IndexError, no Timesheet is made of the table and
    [load] returns nothing for the whole file: there the failed parse does
    abort the table and the file. *)
Theorem TDTS_frames_spec timeTable fs field names_ layer_names :
  fields timeTable = Some fs ->
  find (fun f => fieldId f =? 4) fs = Some field ->
  header_names 4 (timeTableHeaders timeTable) = Some names_ ->
  Forall2 (fun t nm => getitem names_ (trackNo t) = Ok nm) (tracks field) layer_names ->
  (forall err,
      TDTS_read timeTable err
      = (Ok (map (fun p => mkLayer (snd p) (flat_map TDTS_raw_entry (track_frames (fst p))))
                 (combine (tracks field) layer_names),
             duration timeTable),
         err ++ flat_map (fun t => flat_map TDTS_diagnostic (track_frames t)) (tracks field))) /\
  (Exists (fun t => Forall (fun fe => TDTS_raw_entry fe = []) (track_frames t)) (tracks field) ->
   (forall path timeSheet_name err,
       TDTS_init path timeSheet_name timeTable err
       = (Raise IndexError,
          err ++ flat_map (fun t => flat_map TDTS_diagnostic (track_frames t)) (tracks field))) /\
   (forall path sheets_before sheet sheets_after tables_before tables_after err,
       timeTables sheet = tables_before ++ timeTable :: tables_after ->
       exists e,
         fst (load_tdts path (sheets_before ++ sheet :: sheets_after) err) = Raise e)).
Proof.
  intros Hf Hfield Hnames Hlook.
  split; [intros err; apply (TDTS_read_exact timeTable fs field names_ layer_names); assumption |].
  intros Hall.
  assert (Hinit : forall path timeSheet_name err,
             TDTS_init path timeSheet_name timeTable err
             = (Raise IndexError,
                err ++ flat_map (fun t => flat_map TDTS_diagnostic (track_frames t))
                                (tracks field))).
  { intros path timeSheet_name err. unfold TDTS_init.
    erewrite bind_Ok
      by (apply (TDTS_read_exact timeTable fs field names_ layer_names); assumption).
    cbn [fst snd]. unfold lift, Timesheet_init.
    rewrite normalize_layers_empty_layer; [reflexivity |].
    clear - Hall Hlook. induction Hlook as [| t nm ts nms Ht Hrest IH]; [inversion Hall |].
    cbn [combine map fst snd].
    inversion_clear Hall as [? ? H0 | ? ? H0].
    - apply Exists_cons_hd. cbn [frames]. now apply flat_map_nil.
    - apply Exists_cons_tl. now apply IH. }
  split; [exact Hinit |].
  intros path sheets_before sheet sheets_after tables_before tables_after err Htables.
  unfold load_tdts.
  apply for_each_raises with (x := sheet); [| apply in_elt].
  intros acc s. rewrite Htables.
  apply for_each_raises with (x := timeTable); [| apply in_elt].
  intros acc' s'. rewrite Hf. unfold bind. rewrite Hinit. eexists. reflexivity.
Qed.

Lemma TDTS_frames_spec_witness :
  TDTS_read tdts_second_track_abc []
  = (Ok ([mkLayer "A" [mkFrame 3 0; mkFrame 7 12]; mkLayer "B" []], 24),
     [ValueError "abc"; ValueError "abc"]) /\
  TDTS_init "cut.tdts" "c001" tdts_second_track_abc []
  = (Raise IndexError, [ValueError "abc"; ValueError "abc"]) /\
  exists e,
    fst (load_tdts "cut.tdts"
           ([mkSheet "c000" [tdts_plain]]
            ++ mkSheet "c001" [tdts_plain; tdts_second_track_abc; tdts_plain] :: [])
           [])
    = Raise e.
Proof.
  destruct (TDTS_frames_spec tdts_second_track_abc
              [mkField 4 [mkTrack 0 tdts_sample_entries; mkTrack 1 [mkEntry 5 "abc"]]]
              (mkField 4 [mkTrack 0 tdts_sample_entries; mkTrack 1 [mkEntry 5 "abc"]])
              ["A"; "B"] ["A"; "B"])
    as [Hread Habort].
  - reflexivity.
  - reflexivity.
  - reflexivity.
  - repeat constructor.
  - destruct Habort as [Hinit Hload].
    + apply Exists_cons_tl, Exists_cons_hd. repeat constructor.
    + split; [exact (Hread []) | split; [exact (Hinit "cut.tdts" "c001" []) |]].
      apply (Hload "cut.tdts" [mkSheet "c000" [tdts_plain]]
                   (mkSheet "c001" [tdts_plain; tdts_second_track_abc; tdts_plain]) []
                   [tdts_plain] [tdts_plain] []).
      reflexivity.
Defined.

(** ** More on the XDTS reader *)

(** The edges of an XDTS table: without the key ["fields"] the reader
    raises KeyError, with an empty list of fields IndexError, and when no
    header has the first field's id the Timesheet is made with the table's
    duration and no layer. *)
Theorem XDTS_table_edges path timeTable err :
  (fields timeTable = None ->
   XDTS_init path timeTable err = (Raise (KeyError "fields"), err)) /\
  (fields timeTable = Some [] ->
   XDTS_init path timeTable err = (Raise IndexError, err)) /\
  (forall field others,
      fields timeTable = Some (field :: others) ->
      Forall (fun h => header_fieldId h <> fieldId field) (timeTableHeaders timeTable) ->
      XDTS_init path timeTable err
      = (Ok (mkTimesheet path (XDTS_name path timeTable) (duration timeTable) []), err)).
Proof.
  split; [| split].
  - intros H. unfold XDTS_init, call, XDTS_read, table_fields. rewrite H. reflexivity.
  - intros H. unfold XDTS_init, call, XDTS_read, table_fields. rewrite H. reflexivity.
  - intros field others Hf H.
    assert (Hread : XDTS_read timeTable (mkLocals None err)
                    = (Ok ([], duration timeTable), mkLocals None err)).
    { unfold XDTS_read, table_fields. rewrite Hf.
      erewrite bind_Ok by reflexivity. erewrite bind_Ok by reflexivity.
      unfold header_names. rewrite find_none; [reflexivity |].
      eapply Forall_impl; [| exact H]. intros h Hne. now apply Z.eqb_neq. }
    unfold XDTS_init.
    erewrite bind_Ok by (unfold call; rewrite Hread; reflexivity).
    reflexivity.
Qed.

Lemma XDTS_table_edges_witness :
  XDTS_init "cut.xdts" (mkTable "T" 24 None []) [] = (Raise (KeyError "fields"), []) /\
  XDTS_init "cut.xdts" (mkTable "T" 24 (Some []) []) [] = (Raise IndexError, []) /\
  XDTS_init "cut.xdts"
            (mkTable "T" 24 (Some [mkField 0 [mkTrack 0 [mkEntry 0 "abc"]]]) [mkHeader 5 ["A"]])
            []
  = (Ok (mkTimesheet "cut.xdts"
           (XDTS_name "cut.xdts"
              (mkTable "T" 24 (Some [mkField 0 [mkTrack 0 [mkEntry 0 "abc"]]])
                       [mkHeader 5 ["A"]]))
           24 []), []).
Proof.
  split; [| split].
  - apply (proj1 (XDTS_table_edges "cut.xdts" (mkTable "T" 24 None []) [])). reflexivity.
  - apply (proj1 (proj2 (XDTS_table_edges "cut.xdts" (mkTable "T" 24 (Some []) []) []))).
    reflexivity.
  - apply (proj2 (proj2 (XDTS_table_edges "cut.xdts"
             (mkTable "T" 24 (Some [mkField 0 [mkTrack 0 [mkEntry 0 "abc"]]])
                      [mkHeader 5 ["A"]]) []))
             (mkField 0 [mkTrack 0 [mkEntry 0 "abc"]]) []).
    + reflexivity.
    + repeat constructor. discriminate.
Defined.

(** ** The claims on the XDTS reader *)

Lemma tick_or_hyphen_true value : tick_or_hyphen value = true <-> drop_symbol value.
Proof.
  unfold tick_or_hyphen, drop_symbol. simpl.
  rewrite !orb_true_iff, !String.eqb_eq. intuition congruence.
Qed.

Lemma tick_or_hyphen_false value : ~ drop_symbol value -> tick_or_hyphen value = false.
Proof.
  intros H. destruct (tick_or_hyphen value) eqn:E; [| reflexivity].
  apply tick_or_hyphen_true in E. contradiction.
Qed.

Lemma drop_symbol_not_null value :
  drop_symbol value -> (value =? "SYMBOL_NULL_CELL")%string = false.
Proof. intros [-> | [-> | ->]]; reflexivity. Qed.

(** A value without digits at its end is one in which the pattern finds
    nothing. *)
Lemma not_number_search value :
  digit_suffix (chomp value) = EmptyString <-> re_num_search value = None.
Proof.
  rewrite re_num_search_spec. 
  destruct (digit_suffix (chomp value)); simpl; split; congruence.
Qed.

Lemma XDTS_entry_dropped fe frames st :
  drop_symbol (entry_value fe) -> XDTS_entry fe frames st = (Ok frames, st).
Proof.
  intros H. unfold XDTS_entry.
  rewrite (drop_symbol_not_null _ H).
  apply tick_or_hyphen_true in H. now rewrite H.
Qed.

Lemma XDTS_entry_null fe frames st :
  entry_value fe = "SYMBOL_NULL_CELL" ->
  XDTS_entry fe frames st
  = (Ok (frames ++ [mkFrame (entry_frame fe) 0]), mkLocals (Some 0) (stderr st)).
Proof. intros H. unfold XDTS_entry. rewrite H. reflexivity. Qed.

Lemma XDTS_entry_number fe frames st run :
  entry_value fe <> "SYMBOL_NULL_CELL" ->
  ~ drop_symbol (entry_value fe) ->
  re_num_search (entry_value fe) = Some run ->
  Z.of_nat (String.length run) <= int_max_str_digits ->
  XDTS_entry fe frames st
  = (Ok (frames ++ [mkFrame (entry_frame fe) (decimal run)]),
     mkLocals (Some (decimal run)) (stderr st)).
Proof.
  intros Hn Hd Hr Hlen. unfold XDTS_entry.
  apply String.eqb_neq in Hn. rewrite Hn.
  rewrite (tick_or_hyphen_false _ Hd), Hr.
  rewrite (re_num_search_py_int _ _ Hr).
  replace (int_max_str_digits <? _) with false by (symmetry; apply Z.ltb_ge; lia).
  reflexivity.
Qed.

(** [int] refuses a run that is too long, and nothing catches that. *)
Lemma XDTS_entry_long_run fe frames st run :
  entry_value fe <> "SYMBOL_NULL_CELL" ->
  ~ drop_symbol (entry_value fe) ->
  re_num_search (entry_value fe) = Some run ->
  int_max_str_digits < Z.of_nat (String.length run) ->
  XDTS_entry fe frames st = (Raise (ValueError run), st).
Proof.
  intros Hn Hd Hr Hlen. unfold XDTS_entry.
  apply String.eqb_neq in Hn. rewrite Hn.
  rewrite (tick_or_hyphen_false _ Hd), Hr.
  rewrite (re_num_search_py_int _ _ Hr).
  replace (int_max_str_digits <? _) with true by (symmetry; apply Z.ltb_lt; lia).
  reflexivity.
Qed.

Lemma XDTS_entry_not_number fe frames st :
  not_number (entry_value fe) ->
  XDTS_entry fe frames st =
  let st' := mkLocals (cell_var st)
                      (stderr st ++ [Exception ("NotNumberError:" ++ entry_value fe)%string]) in
  match cell_var st with
  | Some c => (Ok (frames ++ [mkFrame (entry_frame fe) c]), st')
  | None => (Raise (UnboundLocalError "cell"), st')
  end.
Proof.
  intros (Hn & Hd & Hr). unfold XDTS_entry.
  apply String.eqb_neq in Hn. rewrite Hn.
  apply not_number_search in Hr.
  rewrite (tick_or_hyphen_false _ Hd), Hr.
  unfold bind, print_exc_local, append_frame, get_cell, ret. simpl.
  destruct (cell_var st); reflexivity.
Qed.

(** *** What one entry adds *)

(** An entry that does not raise adds its frame, or nothing when it is a tick
    or hyphen; it leaves in [cell] what it computed, and what was printed
    stays. *)
Lemma XDTS_entry_Ok_inv fe frames st frames' st' :
  XDTS_entry fe frames st = (Ok frames', st') ->
  exists mid printed,
    frames' = frames ++ mid /\
    map frame mid = map entry_frame (appended [fe]) /\
    stderr st' = stderr st ++ printed /\
    cell_var st' = match computed_cell (entry_value fe) with
                   | Some c => Some c
                   | None => cell_var st
                   end.
Proof.
  unfold XDTS_entry, computed_cell, appended. cbn [filter].
  destruct (entry_value fe =? "SYMBOL_NULL_CELL")%string eqn:En.
  { apply String.eqb_eq in En. rewrite En.
    intros [= <- <-]. exists [mkFrame (entry_frame fe) 0], [].
    cbn. rewrite app_nil_r. repeat split. }
  destruct (tick_or_hyphen (entry_value fe)).
  { intros [= <- <-]. exists [], []. rewrite !app_nil_r. repeat split. }
  cbn [negb map].
  destruct (re_num_search (entry_value fe)) as [run |] eqn:Hr.
  - rewrite (re_num_search_py_int _ _ Hr).
    destruct (int_max_str_digits <? _); [discriminate |].
    intros [= <- <-]. exists [mkFrame (entry_frame fe) (decimal run)], [].
    cbn. rewrite app_nil_r. repeat split.
  - unfold bind, print_exc_local, append_frame, get_cell, ret. simpl.
    destruct (cell_var st) as [c |]; [| discriminate].
    intros [= <- <-]. eexists [mkFrame (entry_frame fe) c], _.
    cbn. repeat split.
Qed.

Lemma last_computed_app prev l1 l2 :
  last_computed prev (l1 ++ l2) = last_computed (last_computed prev l1) l2.
Proof. unfold last_computed. apply fold_left_app. Qed.

Lemma appended_app l1 l2 : appended (l1 ++ l2) = appended l1 ++ appended l2.
Proof. unfold appended. apply filter_app. Qed.

Lemma XDTS_entries_Ok_inv entries : forall frames st frames' st',
  for_each XDTS_entry entries frames st = (Ok frames', st') ->
  exists added printed,
    frames' = frames ++ added /\
    map frame added = map entry_frame (appended entries) /\
    stderr st' = stderr st ++ printed /\
    cell_var st' = last_computed (cell_var st) entries.
Proof.
  induction entries as [| fe entries IH]; intros frames st frames' st' H.
  - injection H as <- <-. exists [], []. now rewrite !app_nil_r.
  - cbn [for_each] in H. inv_bind H.
    apply XDTS_entry_Ok_inv in Hm. destruct Hm as (mid & p1 & -> & Hmid & Hp1 & Hc1).
    apply IH in H. destruct H as (added & p2 & -> & Hadd & Hp2 & Hc2).
    exists (mid ++ added), (p1 ++ p2). repeat split.
    + now rewrite app_assoc.
    + change (fe :: entries) with ([fe] ++ entries).
      now rewrite appended_app, !map_app, Hmid, Hadd.
    + now rewrite Hp2, Hp1, app_assoc.
    + rewrite Hc2, Hc1. reflexivity.
Qed.

(** One entry of a track that is read to its end, with what is before it and
    after it. *)
Lemma XDTS_entries_split before fe after st frames' st' :
  for_each XDTS_entry (before ++ fe :: after) [] st = (Ok frames', st') ->
  exists frames1 st1 mid st2 frames2 printed1 printed2,
    frames' = frames1 ++ mid ++ frames2 /\
    map frame frames1 = map entry_frame (appended before) /\
    map frame frames2 = map entry_frame (appended after) /\
    cell_var st1 = last_computed (cell_var st) before /\
    stderr st1 = stderr st ++ printed1 /\
    XDTS_entry fe frames1 st1 = (Ok (frames1 ++ mid), st2) /\
    stderr st' = stderr st2 ++ printed2 /\
    cell_var st' = last_computed (cell_var st2) after.
Proof.
  intros H. rewrite for_each_app in H. inv_bind H.
  cbn [for_each] in H. inv_bind H.
  pose proof Hm as Hb. apply XDTS_entries_Ok_inv in Hb.
  destruct Hb as (frames1 & p1 & -> & Hf1 & Hp1 & Hc1).
  pose proof Hm0 as He. apply XDTS_entry_Ok_inv in He.
  destruct He as (mid & p & -> & _ & _ & _).
  apply XDTS_entries_Ok_inv in H. destruct H as (frames2 & p2 & -> & Hf2 & Hp2 & Hc2).
  cbn [app] in *.
  exists frames1, s, mid, s0, frames2, p1, p2.
  rewrite <- app_assoc. repeat split; assumption.
Qed.

Lemma lift_inv_Ok_state {S A : Type} (r : result A) (s s' : S) a :
  lift r s = (Ok a, s') -> r = Ok a /\ s' = s.
Proof. unfold lift. now intros [= -> ->]. Qed.

Lemma XDTS_track_Ok_inv names_ t layers st layers' st' :
  XDTS_track names_ t layers st = (Ok layers', st') ->
  exists nm frs,
    getitem names_ (trackNo t) = Ok nm /\
    for_each XDTS_entry (track_frames t) [] st = (Ok frs, st') /\
    layers' = layers ++ [mkLayer nm frs].
Proof.
  unfold XDTS_track. intros H. inv_bind H. inv_bind H.
  apply lift_inv_Ok_state in Hm. destruct Hm as [Hm ->].
  injection H as <- <-. now exists a, a0.
Qed.

Lemma XDTS_tracks_Ok_inv names_ tracks_ : forall layers st layers' st',
  for_each (XDTS_track names_) tracks_ layers st = (Ok layers', st') ->
  exists added printed,
    layers' = layers ++ added /\
    List.length added = List.length tracks_ /\
    stderr st' = stderr st ++ printed /\
    cell_var st' = last_computed (cell_var st) (flat_map track_frames tracks_).
Proof.
  induction tracks_ as [| t tracks_ IH]; intros layers st layers' st' H.
  - injection H as <- <-. exists [], []. rewrite !app_nil_r. repeat split.
  - cbn [for_each] in H. inv_bind H.
    apply XDTS_track_Ok_inv in Hm. destruct Hm as (nm & frs & _ & Hfr & ->).
    apply XDTS_entries_Ok_inv in Hfr. destruct Hfr as (_ & p1 & _ & _ & Hp1 & Hc1).
    apply IH in H. destruct H as (added & p2 & -> & Hlen & Hp2 & Hc2).
    exists (mkLayer nm frs :: added), (p1 ++ p2). repeat split.
    + now rewrite <- app_assoc.
    + simpl. now rewrite Hlen.
    + now rewrite Hp2, Hp1, app_assoc.
    + cbn [flat_map]. now rewrite last_computed_app, Hc2, Hc1.
Qed.

(** One track of a field that is read to its end. *)
Lemma XDTS_tracks_split names_ tracks_before t tracks_after st layers' st' :
  for_each (XDTS_track names_) (tracks_before ++ t :: tracks_after) [] st = (Ok layers', st') ->
  exists layers1 st1 nm frs st2 layers2 printed1 printed2,
    layers' = layers1 ++ mkLayer nm frs :: layers2 /\
    List.length layers1 = List.length tracks_before /\
    cell_var st1 = last_computed (cell_var st) (flat_map track_frames tracks_before) /\
    stderr st1 = stderr st ++ printed1 /\
    getitem names_ (trackNo t) = Ok nm /\
    for_each XDTS_entry (track_frames t) [] st1 = (Ok frs, st2) /\
    stderr st' = stderr st2 ++ printed2.
Proof.
  intros H. rewrite for_each_app in H. inv_bind H.
  cbn [for_each] in H. inv_bind H.
  apply XDTS_tracks_Ok_inv in Hm. destruct Hm as (layers1 & p1 & -> & Hlen & Hp1 & Hc1).
  apply XDTS_track_Ok_inv in Hm0. destruct Hm0 as (nm & frs & Hnm & Hfr & ->).
  apply XDTS_tracks_Ok_inv in H. destruct H as (layers2 & p2 & -> & _ & Hp2 & _).
  cbn [app] in *.
  exists layers1, s, nm, frs, s0, layers2, p1, p2.
  rewrite <- app_assoc. repeat split; assumption.
Qed.

Lemma XDTS_read_Ok_inv timeTable field others names_ st layers fc st' :
  fields timeTable = Some (field :: others) ->
  header_names (fieldId field) (timeTableHeaders timeTable) = Some names_ ->
  XDTS_read timeTable st = (Ok (layers, fc), st') ->
  for_each (XDTS_track names_) (tracks field) [] st = (Ok layers, st').
Proof.
  intros Hf Hnames H. unfold XDTS_read, table_fields in H. rewrite Hf in H.
  erewrite bind_Ok in H by reflexivity. erewrite bind_Ok in H by reflexivity.
  rewrite Hnames in H. inv_bind H. injection H as <- _ <-. exact Hm.
Qed.

(** One entry of a table that is read to its end: the layer of its track
    holds what the entries before it added, then what the entry itself adds
    in the state the loop has reached, then what the entries after it
    added. *)
Lemma XDTS_read_entry timeTable field others names_ tracks_before track tracks_after
      before fe after st layers fc st' :
  fields timeTable = Some (field :: others) ->
  header_names (fieldId field) (timeTableHeaders timeTable) = Some names_ ->
  tracks field = tracks_before ++ track :: tracks_after ->
  track_frames track = before ++ fe :: after ->
  XDTS_read timeTable st = (Ok (layers, fc), st') ->
  exists l frames1 mid frames2 st1 st2 printed1 printed2,
    nth_error layers (List.length tracks_before) = Some l /\
    frames l = frames1 ++ mid ++ frames2 /\
    map frame frames1 = map entry_frame (appended before) /\
    map frame frames2 = map entry_frame (appended after) /\
    cell_var st1 = last_computed (cell_var st) (flat_map track_frames tracks_before ++ before) /\
    stderr st1 = stderr st ++ printed1 /\
    XDTS_entry fe frames1 st1 = (Ok (frames1 ++ mid), st2) /\
    stderr st' = stderr st2 ++ printed2.
Proof.
  intros Hf Hnames Htracks Hentries H.
  apply (XDTS_read_Ok_inv _ _ _ _ _ _ _ _ Hf Hnames) in H.
  rewrite Htracks in H. apply XDTS_tracks_split in H.
  destruct H as (layers1 & sa & nm & frs & sb & layers2 & pa & pb
                 & -> & Hlen & Hca & Hpa & _ & Hfr & Hpb).
  rewrite Hentries in Hfr. apply XDTS_entries_split in Hfr.
  destruct Hfr as (frames1 & st1 & mid & st2 & frames2 & p1 & p2
                   & -> & Hf1 & Hf2 & Hc1 & Hp1 & He & Hp2 & _).
  exists (mkLayer nm (frames1 ++ mid ++ frames2)), frames1, mid, frames2, st1, st2,
    (pa ++ p1), (p2 ++ pb).
  repeat split; try assumption.
  - rewrite <- Hlen, nth_error_app2, Nat.sub_diag by lia. reflexivity.
  - now rewrite last_computed_app, Hc1, Hca.
  - now rewrite Hp1, Hpa, app_assoc.
  - now rewrite Hpb, Hp2, app_assoc.
Qed.

(** C9.  In the XDTS reader a tick or hyphen symbol gives no entry (the loop
    runs as if the entry were not there); the null-cell symbol gives cell 0;
    any other value that ends in digits gives that run of digits read as a
    decimal number, as long as the run has no more digits than [int] takes
    (4300); a longer run makes [int] raise ValueError, which nothing catches,
    and no Timesheet is made of the table.  In a table that is read to its
    end, the layer of the entry's track holds, between what the entries
    before it and the entries after it added, nothing for a tick or hyphen,
    [(frame, 0)] for the null-cell symbol and [(frame, number)] for a value
    that ends in digits.  ["cell_042"] gives 42. *)
Theorem XDTS_value_mapping fe :
  (drop_symbol (entry_value fe) ->
   forall before after frames st,
     for_each XDTS_entry (before ++ fe :: after) frames st
     = for_each XDTS_entry (before ++ after) frames st) /\
  (entry_value fe = "SYMBOL_NULL_CELL" ->
   forall frames st,
     XDTS_entry fe frames st
     = (Ok (frames ++ [mkFrame (entry_frame fe) 0]), mkLocals (Some 0) (stderr st))) /\
  (entry_value fe <> "SYMBOL_NULL_CELL" ->
   ~ drop_symbol (entry_value fe) ->
   nonempty (digit_suffix (entry_value fe)) = true ->
   let run := digit_suffix (entry_value fe) in
   (Z.of_nat (String.length run) <= int_max_str_digits ->
    forall frames st,
      XDTS_entry fe frames st
      = (Ok (frames ++ [mkFrame (entry_frame fe) (decimal run)]),
         mkLocals (Some (decimal run)) (stderr st))) /\
   (int_max_str_digits < Z.of_nat (String.length run) ->
    forall frames st, XDTS_entry fe frames st = (Raise (ValueError run), st))) /\
  (forall timeTable field others names_ tracks_before track tracks_after before after,
      fields timeTable = Some (field :: others) ->
      header_names (fieldId field) (timeTableHeaders timeTable) = Some names_ ->
      tracks field = tracks_before ++ track :: tracks_after ->
      track_frames track = before ++ fe :: after ->
      (forall err layers fc st',
          XDTS_read timeTable (mkLocals None err) = (Ok (layers, fc), st') ->
          exists l frames1 frames2,
            nth_error layers (List.length tracks_before) = Some l /\
            map frame frames1 = map entry_frame (appended before) /\
            map frame frames2 = map entry_frame (appended after) /\
            (drop_symbol (entry_value fe) -> frames l = frames1 ++ frames2) /\
            (entry_value fe = "SYMBOL_NULL_CELL" ->
             frames l = frames1 ++ mkFrame (entry_frame fe) 0 :: frames2) /\
            (entry_value fe <> "SYMBOL_NULL_CELL" ->
             ~ drop_symbol (entry_value fe) ->
             nonempty (digit_suffix (entry_value fe)) = true ->
             frames l
             = frames1
                 ++ mkFrame (entry_frame fe) (decimal (digit_suffix (entry_value fe)))
                 :: frames2)) /\
      (entry_value fe <> "SYMBOL_NULL_CELL" ->
       ~ drop_symbol (entry_value fe) ->
       nonempty (digit_suffix (entry_value fe)) = true ->
       int_max_str_digits < Z.of_nat (String.length (digit_suffix (entry_value fe))) ->
       forall path err, exists e, fst (XDTS_init path timeTable err) = Raise e)) /\
  (digit_suffix "cell_042" = "042" /\ decimal "042" = 42).
Proof.
  split; [| split; [| split; [| split]]].
  - intros H before after frames st.
    rewrite !for_each_app. unfold bind.
    destruct (for_each XDTS_entry before frames st) as [[frames1 | e] st1]; [| reflexivity].
    cbn [for_each]. unfold bind. now rewrite XDTS_entry_dropped.
  - intros H frames st. now apply XDTS_entry_null.
  - intros Hn Hd Hs run. split.
    + intros Hlen frames st. apply XDTS_entry_number; try assumption.
      now apply re_num_search_trailing.
    + intros Hlen frames st. apply XDTS_entry_long_run; try assumption.
      now apply re_num_search_trailing.
  - intros timeTable field others names_ tracks_before track tracks_after before after
           Hf Hnames Htracks Hentries.
    assert (Hread : forall st layers fc st',
               XDTS_read timeTable st = (Ok (layers, fc), st') ->
               exists l frames1 mid frames2 st1 st2,
                 nth_error layers (List.length tracks_before) = Some l /\
                 frames l = frames1 ++ mid ++ frames2 /\
                 map frame frames1 = map entry_frame (appended before) /\
                 map frame frames2 = map entry_frame (appended after) /\
                 XDTS_entry fe frames1 st1 = (Ok (frames1 ++ mid), st2)).
    { intros st layers fc st' H.
      destruct (XDTS_read_entry _ _ _ _ _ _ _ _ _ _ _ _ _ _ Hf Hnames Htracks Hentries H)
        as (l & frames1 & mid & frames2 & st1 & st2 & _ & _ & Hl & Hfr & H1 & H2 & _ & _ & He & _).
      now exists l, frames1, mid, frames2, st1, st2. }
    split.
    + intros err layers fc st' H.
      destruct (Hread _ _ _ _ H) as (l & frames1 & mid & frames2 & st1 & st2
                                     & Hl & Hfr & H1 & H2 & He).
      exists l, frames1, frames2. repeat split; try assumption.
      * intros Hd. rewrite (XDTS_entry_dropped _ _ _ Hd) in He.
        injection He as He _. rewrite <- (app_nil_r frames1) in He at 1.
        apply app_inv_head in He. subst mid. exact Hfr.
      * intros Hnull. rewrite (XDTS_entry_null _ _ _ Hnull) in He.
        injection He as He _. apply app_inv_head in He. subst mid. exact Hfr.
      * intros Hn Hd Hs.
        pose proof (re_num_search_trailing _ Hs) as Hr.
        destruct (Z_le_gt_dec (Z.of_nat (String.length (digit_suffix (entry_value fe))))
                              int_max_str_digits) as [Hle | Hgt].
        -- rewrite (XDTS_entry_number _ _ _ _ Hn Hd Hr Hle) in He.
           injection He as He _. apply app_inv_head in He. subst mid. exact Hfr.
        -- rewrite (XDTS_entry_long_run _ _ _ _ Hn Hd Hr) in He by lia. discriminate.
    + intros Hn Hd Hs Hlen path err.
      pose proof (re_num_search_trailing _ Hs) as Hr.
      unfold XDTS_init, bind, call.
      destruct (XDTS_read timeTable (mkLocals None err)) as [[[layers fc] | e] st'] eqn:E;
        [| eexists; reflexivity].
      destruct (Hread _ _ _ _ E) as (l & frames1 & mid & frames2 & st1 & st2
                                     & _ & _ & _ & _ & He).
      rewrite (XDTS_entry_long_run _ _ _ _ Hn Hd Hr Hlen) in He. discriminate.
  - split; reflexivity.
Qed.

Lemma XDTS_value_mapping_witness :
  for_each XDTS_entry ([mkEntry 0 "7"] ++ mkEntry 2 "SYMBOL_HYPHEN" :: [mkEntry 8 "cell_042"])
           [] (mkLocals None [])
  = for_each XDTS_entry ([mkEntry 0 "7"] ++ [mkEntry 8 "cell_042"]) [] (mkLocals None []) /\
  XDTS_entry (mkEntry 6 "SYMBOL_NULL_CELL") [] (mkLocals None [])
  = (Ok [mkFrame 6 0], mkLocals (Some 0) []) /\
  XDTS_entry (mkEntry 8 "cell_042") [] (mkLocals None [])
  = (Ok [mkFrame 8 (decimal "042")], mkLocals (Some (decimal "042")) []) /\
  XDTS_entry (mkEntry 1 long_run) [] (mkLocals (Some 1) [])
  = (Raise (ValueError (digit_suffix long_run)), mkLocals (Some 1) []) /\
  XDTS_read xdts_carried (mkLocals None [])
  = (Ok ([mkLayer "A" [mkFrame 0 7]; mkLayer "B" [mkFrame 2 7; mkFrame 5 42]], 24),
     mkLocals (Some 42) [Exception "NotNumberError:abc"]) /\
  (exists l frames1 frames2,
      nth_error [mkLayer "A" [mkFrame 0 7]; mkLayer "B" [mkFrame 2 7; mkFrame 5 42]] 1 = Some l /\
      map frame frames1 = [2] /\
      map frame frames2 = [] /\
      frames l = frames1 ++ mkFrame 5 (decimal (digit_suffix "cell_042")) :: frames2) /\
  (exists e, fst (XDTS_init "cut.xdts" xdts_long_run []) = Raise e).
Proof.
  assert (Hlong : long_run <> "SYMBOL_NULL_CELL" /\ ~ drop_symbol long_run /\
                  nonempty (digit_suffix long_run) = true /\
                  int_max_str_digits < Z.of_nat (String.length (digit_suffix long_run))).
  { split; [intros H; vm_compute in H; discriminate H |].
    split; [intros [H | [H | H]]; vm_compute in H; discriminate H |].
    split; vm_compute; reflexivity. }
  destruct Hlong as (L1 & L2 & L3 & L4).
  assert (Hcell : "cell_042" <> "SYMBOL_NULL_CELL" /\ ~ drop_symbol "cell_042").
  { split; [discriminate | intros [H | [H | H]]; discriminate]. }
  destruct Hcell as (N1 & N2).
  assert (Hread : XDTS_read xdts_carried (mkLocals None [])
                  = (Ok ([mkLayer "A" [mkFrame 0 7]; mkLayer "B" [mkFrame 2 7; mkFrame 5 42]],
                         24),
                     mkLocals (Some 42) [Exception "NotNumberError:abc"]))
    by (vm_compute; reflexivity).
  split; [| split; [| split; [| split; [| split; [exact Hread | split]]]]].
  - apply (proj1 (XDTS_value_mapping (mkEntry 2 "SYMBOL_HYPHEN"))).
    right. right. reflexivity.
  - apply (proj1 (proj2 (XDTS_value_mapping (mkEntry 6 "SYMBOL_NULL_CELL")))). reflexivity.
  - apply (proj1 (proj1 (proj2 (proj2 (XDTS_value_mapping (mkEntry 8 "cell_042"))))
                        N1 N2 eq_refl)).
    vm_compute. discriminate.
  - apply (proj2 (proj1 (proj2 (proj2 (XDTS_value_mapping (mkEntry 1 long_run))))
                        L1 L2 L3)).
    exact L4.
  - destruct (proj1 (proj2 (proj2 (proj2 (XDTS_value_mapping (mkEntry 5 "cell_042"))))))
      with (timeTable := xdts_carried)
           (field := mkField 0 [mkTrack 0 [mkEntry 0 "7"];
                                mkTrack 1 [mkEntry 1 "SYMBOL_HYPHEN"; mkEntry 2 "abc";
                                           mkEntry 5 "cell_042"]])
           (others := @nil Field) (names_ := ["A"; "B"])
           (tracks_before := [mkTrack 0 [mkEntry 0 "7"]])
           (track := mkTrack 1 [mkEntry 1 "SYMBOL_HYPHEN"; mkEntry 2 "abc";
                                mkEntry 5 "cell_042"])
           (tracks_after := @nil Track)
           (before := [mkEntry 1 "SYMBOL_HYPHEN"; mkEntry 2 "abc"])
           (after := @nil FrameEntry)
      as [Hmap _]; try reflexivity.
    destruct (Hmap _ _ _ _ Hread) as (l & frames1 & frames2 & Hl & H1 & H2 & _ & _ & Hnum).
    exists l, frames1, frames2.
    split; [exact Hl | split; [exact H1 | split; [exact H2 |]]].
    exact (Hnum N1 N2 eq_refl).
  - destruct (proj1 (proj2 (proj2 (proj2 (XDTS_value_mapping (mkEntry 1 long_run))))))
      with (timeTable := xdts_long_run)
           (field := mkField 0 [mkTrack 0 [mkEntry 0 "1"; mkEntry 1 long_run]])
           (others := @nil Field) (names_ := ["A"])
           (tracks_before := @nil Track)
           (track := mkTrack 0 [mkEntry 0 "1"; mkEntry 1 long_run])
           (tracks_after := @nil Track)
           (before := [mkEntry 0 "1"])
           (after := @nil FrameEntry)
      as [_ Hraise]; try reflexivity.
    exact (Hraise L1 L2 L3 L4 "cut.xdts" []).
Defined.

(** C9 as stated fails on a value that ends in 4301 digits: it is not mapped
    to the number its digits spell, [int] raises ValueError and neither the
    reader nor [load] returns anything. *)
Lemma XDTS_long_run_raises :
  (long_run =? "SYMBOL_NULL_CELL")%string = false /\
  tick_or_hyphen long_run = false /\
  digit_suffix long_run = long_run /\
  Z.of_nat (String.length long_run) = 4301 /\
  XDTS_init "cut.xdts" xdts_long_run [] = (Raise (ValueError long_run), []) /\
  load_xdts "cut.xdts" [xdts_long_run] [] = (Raise (ValueError long_run), []).
Proof.
  split; [| split; [| split; [| split; [| split]]]]; vm_compute; reflexivity.
Qed.

(** *** The local variable [cell] *)

(** C3.  A value that is no symbol and has no digits at its end (a line feed
    that ends the value not counted), met when a cell was computed before in
    the same call: the NotNumberError is printed and the entry is still
    appended, with the cell computed last, be it in an earlier track.  In a
    table that is read to its end the traceback is among what was printed
    and the frame is in the layer of the entry's track, between what the
    entries before it and the entries after it added. *)
Theorem XDTS_not_number_reuses_cell fe :
  not_number (entry_value fe) ->
  (forall frames st c,
      cell_var st = Some c ->
      XDTS_entry fe frames st
      = (Ok (frames ++ [mkFrame (entry_frame fe) c]),
         mkLocals (Some c)
                  (stderr st ++ [Exception ("NotNumberError:" ++ entry_value fe)%string]))) /\
  (forall timeTable field others names_ tracks_before track tracks_after before after c
          err layers fc st',
      fields timeTable = Some (field :: others) ->
      header_names (fieldId field) (timeTableHeaders timeTable) = Some names_ ->
      tracks field = tracks_before ++ track :: tracks_after ->
      track_frames track = before ++ fe :: after ->
      last_computed None (flat_map track_frames tracks_before ++ before) = Some c ->
      XDTS_read timeTable (mkLocals None err) = (Ok (layers, fc), st') ->
      (exists printed_before printed_after,
          stderr st'
          = err ++ printed_before
                ++ Exception ("NotNumberError:" ++ entry_value fe)%string :: printed_after) /\
      exists l frames1 frames2,
        nth_error layers (List.length tracks_before) = Some l /\
        frames l = frames1 ++ mkFrame (entry_frame fe) c :: frames2 /\
        map frame frames1 = map entry_frame (appended before) /\
        map frame frames2 = map entry_frame (appended after)).
Proof.
  intros Hnn. split.
  - intros frames st c Hc.
    rewrite (XDTS_entry_not_number _ _ _ Hnn). cbv zeta. now rewrite Hc.
  - intros timeTable field others names_ tracks_before track tracks_after before after c
           err layers fc st' Hf Hnames Htracks Hentries Hlast H.
    destruct (XDTS_read_entry _ _ _ _ _ _ _ _ _ _ _ _ _ _ Hf Hnames Htracks Hentries H)
      as (l & frames1 & mid & frames2 & st1 & st2 & p1 & p2
          & Hl & Hfr & H1 & H2 & Hc & Hp1 & He & Hp2).
    cbn [cell_var stderr] in Hc, Hp1. rewrite Hlast in Hc.
    rewrite (XDTS_entry_not_number _ _ _ Hnn) in He. cbv zeta in He. rewrite Hc in He.
    injection He as He <-. apply app_inv_head in He. subst mid.
    split.
    + exists p1, p2. cbn [stderr] in Hp2. rewrite Hp2, Hp1, <- !app_assoc. reflexivity.
    + exists l, frames1, frames2. repeat split; assumption.
Qed.

Lemma XDTS_not_number_reuses_cell_witness :
  not_number "abc" /\
  XDTS_entry (mkEntry 4 "abc") [mkFrame 0 7] (mkLocals (Some 7) [])
  = (Ok ([mkFrame 0 7] ++ [mkFrame 4 7]),
     mkLocals (Some 7) ([] ++ [Exception "NotNumberError:abc"])) /\
  XDTS_read xdts_carried (mkLocals None [])
  = (Ok ([mkLayer "A" [mkFrame 0 7]; mkLayer "B" [mkFrame 2 7; mkFrame 5 42]], 24),
     mkLocals (Some 42) [Exception "NotNumberError:abc"]) /\
  exists l frames1 frames2,
    nth_error [mkLayer "A" [mkFrame 0 7]; mkLayer "B" [mkFrame 2 7; mkFrame 5 42]] 1 = Some l /\
    frames l = frames1 ++ mkFrame 2 7 :: frames2 /\
    map frame frames1 = [] /\
    map frame frames2 = [5].
Proof.
  assert (Hnn : not_number "abc").
  { split; [discriminate | split; [| reflexivity]].
    intros [H | [H | H]]; discriminate. }
  assert (Hread : XDTS_read xdts_carried (mkLocals None [])
                  = (Ok ([mkLayer "A" [mkFrame 0 7]; mkLayer "B" [mkFrame 2 7; mkFrame 5 42]],
                         24),
                     mkLocals (Some 42) [Exception "NotNumberError:abc"]))
    by (vm_compute; reflexivity).
  destruct (XDTS_not_number_reuses_cell (mkEntry 2 "abc") Hnn) as [_ Htable].
  destruct (XDTS_not_number_reuses_cell (mkEntry 4 "abc") Hnn) as [Hentry _].
  split; [exact Hnn | split; [| split; [exact Hread |]]].
  - apply Hentry. reflexivity.
  - apply (Htable xdts_carried
                  (mkField 0 [mkTrack 0 [mkEntry 0 "7"];
                              mkTrack 1 [mkEntry 1 "SYMBOL_HYPHEN"; mkEntry 2 "abc";
                                         mkEntry 5 "cell_042"]])
                  [] ["A"; "B"] [mkTrack 0 [mkEntry 0 "7"]]
                  (mkTrack 1 [mkEntry 1 "SYMBOL_HYPHEN"; mkEntry 2 "abc"; mkEntry 5 "cell_042"])
                  [] [mkEntry 1 "SYMBOL_HYPHEN"] [mkEntry 5 "cell_042"] 7 []
                  _ _ _ eq_refl eq_refl eq_refl eq_refl eq_refl Hread).
Defined.

(** C3 as stated fails on a value that ends in a digit and a line feed: the
    value has no digits at its end, and a cell (3) was computed before, yet
    the pattern finds the 7: no NotNumberError is printed and the entry
    carries 7. *)
Lemma XDTS_line_feed_is_a_number :
  (seven_line_feed =? "SYMBOL_NULL_CELL")%string = false /\
  tick_or_hyphen seven_line_feed = false /\
  digit_suffix seven_line_feed = EmptyString /\
  last_computed None [mkEntry 0 "3"] = Some 3 /\
  XDTS_read xdts_line_feed (mkLocals None [])
  = (Ok ([mkLayer "A" [mkFrame 0 3; mkFrame 1 7]], 24), mkLocals (Some 7) []).
Proof. repeat split. Qed.

(** *** [cell] unbound *)

Lemma XDTS_frames_all_dropped entries : forall frames st,
  Forall (fun fe => drop_symbol (entry_value fe)) entries ->
  for_each XDTS_entry entries frames st = (Ok frames, st).
Proof.
  induction entries as [| e entries IH]; intros frames st H; [reflexivity |].
  inversion_clear H as [| ? ? He Hrest]. cbn [for_each].
  erewrite bind_Ok by (now apply XDTS_entry_dropped). now apply IH.
Qed.

Lemma XDTS_tracks_all_dropped names_ tracks_ : forall layers st,
  Forall (fun t => exists n, getitem names_ (trackNo t) = Ok n) tracks_ ->
  Forall (fun fe => drop_symbol (entry_value fe)) (flat_map track_frames tracks_) ->
  exists layers', for_each (XDTS_track names_) tracks_ layers st = (Ok layers', st).
Proof.
  induction tracks_ as [| t tracks_ IH]; intros layers st Hnames Hdrop.
  - exists layers. reflexivity.
  - inversion_clear Hnames as [| ? ? (n & Hn) Hrest].
    cbn [flat_map] in Hdrop. apply Forall_app in Hdrop. destruct Hdrop as [Ht Hts].
    cbn [for_each]. erewrite bind_Ok; cycle 1.
    { unfold XDTS_track. erewrite bind_Ok by (unfold lift; now rewrite Hn).
      erewrite bind_Ok by (now apply XDTS_frames_all_dropped). reflexivity. }
    now apply IH.
Qed.

(** C10.  When the first value a table's loop tries to append is no symbol
    and has no digits at its end (a line feed that ends the value not
    counted), [cell] is still unbound: the append raises UnboundLocalError,
    nothing catches it, no Timesheet is made of the table and [load]
    returns no list at all.  Only the tracks up to the one that holds the
    value need a name; what comes after the value is never looked at. *)
Theorem XDTS_unbound_cell_is_fatal path timeTable field other_fields names_
        tracks_before track tracks_after before fe after :
  fields timeTable = Some (field :: other_fields) ->
  header_names (fieldId field) (timeTableHeaders timeTable) = Some names_ ->
  tracks field = tracks_before ++ track :: tracks_after ->
  track_frames track = before ++ fe :: after ->
  Forall (fun t => exists n, getitem names_ (trackNo t) = Ok n) (tracks_before ++ [track]) ->
  Forall (fun e => drop_symbol (entry_value e))
         (flat_map track_frames tracks_before ++ before) ->
  not_number (entry_value fe) ->
  (forall err,
      XDTS_init path timeTable err
      = (Raise (UnboundLocalError "cell"),
         err ++ [Exception ("NotNumberError:" ++ entry_value fe)%string])) /\
  (forall tables_before tables_after err,
      exists e,
        fst (load_xdts path (tables_before ++ timeTable :: tables_after) err) = Raise e) /\
  (forall tables_after err,
      load_xdts path (timeTable :: tables_after) err
      = (Raise (UnboundLocalError "cell"),
         err ++ [Exception ("NotNumberError:" ++ entry_value fe)%string])).
Proof.
  intros Hfields Hnames Htracks Hentries Hlook Hdrop Hnn.
  apply Forall_app in Hlook. destruct Hlook as [Hlook_before Hlook_track].
  inversion_clear Hlook_track as [| ? ? (n & Hn) _].
  apply Forall_app in Hdrop. destruct Hdrop as [Hdrop_tracks Hdrop_before].
  assert (Hinit : forall err,
             XDTS_init path timeTable err
             = (Raise (UnboundLocalError "cell"),
                err ++ [Exception ("NotNumberError:" ++ entry_value fe)%string])).
  { intros err.
    assert (Hread : XDTS_read timeTable (mkLocals None err)
                    = (Raise (UnboundLocalError "cell"),
                       mkLocals None
                         (err ++ [Exception ("NotNumberError:" ++ entry_value fe)%string]))).
    { unfold XDTS_read.
      erewrite bind_Ok by (unfold table_fields; rewrite Hfields; reflexivity).
      erewrite bind_Ok by reflexivity.
      rewrite Hnames, Htracks.
      erewrite bind_Raise; [reflexivity |].
      rewrite for_each_app.
      destruct (XDTS_tracks_all_dropped names_ tracks_before [] (mkLocals None err)
                                        Hlook_before Hdrop_tracks) as (layers1 & E1).
      erewrite bind_Ok by exact E1.
      cbn [for_each]. erewrite bind_Raise; [reflexivity |].
      unfold XDTS_track. erewrite bind_Ok by (unfold lift; now rewrite Hn).
      erewrite bind_Raise; [reflexivity |].
      rewrite Hentries, for_each_app.
      erewrite bind_Ok by (now apply XDTS_frames_all_dropped).
      cbn [for_each]. erewrite bind_Raise; [reflexivity |].
      rewrite (XDTS_entry_not_number _ _ _ Hnn). reflexivity. }
    unfold XDTS_init. erewrite bind_Raise; [reflexivity |].
    unfold call. rewrite Hread. reflexivity. }
  split; [exact Hinit | split].
  - intros tables_before tables_after err. unfold load_xdts.
    apply for_each_raises with (x := timeTable); [| apply in_elt].
    intros acc s. unfold bind. rewrite Hinit. eexists. reflexivity.
  - intros tables_after err. unfold load_xdts. cbn [for_each].
    erewrite bind_Raise; [reflexivity |].
    erewrite bind_Raise; [reflexivity |]. apply Hinit.
Qed.

Lemma XDTS_unbound_cell_is_fatal_witness :
  XDTS_init "cut.xdts" xdts_unbound_nameless []
  = (Raise (UnboundLocalError "cell"), [] ++ [Exception "NotNumberError:abc"]) /\
  (exists e,
      fst (load_xdts "cut.xdts" ([xdts_plain] ++ xdts_unbound_nameless :: [xdts_plain]) [])
      = Raise e).
Proof.
  assert (Hnn : not_number "abc").
  { split; [discriminate | split; [| reflexivity]].
    intros [H | [H | H]]; discriminate. }
  destruct (XDTS_unbound_cell_is_fatal
              "cut.xdts" xdts_unbound_nameless
              (mkField 0 [mkTrack 0 [mkEntry 0 "SYMBOL_TICK_1"];
                          mkTrack 1 [mkEntry 0 "SYMBOL_HYPHEN"; mkEntry 1 "abc";
                                     mkEntry 2 "5"];
                          mkTrack 9 [mkEntry 0 "1"]])
              [] ["A"; "B"]
              [mkTrack 0 [mkEntry 0 "SYMBOL_TICK_1"]]
              (mkTrack 1 [mkEntry 0 "SYMBOL_HYPHEN"; mkEntry 1 "abc"; mkEntry 2 "5"])
              [mkTrack 9 [mkEntry 0 "1"]]
              [mkEntry 0 "SYMBOL_HYPHEN"] (mkEntry 1 "abc") [mkEntry 2 "5"])
    as (Hinit & Hload & _).
  - reflexivity.
  - reflexivity.
  - reflexivity.
  - reflexivity.
  - repeat constructor; eexists; reflexivity.
  - constructor; [left; reflexivity |].
    constructor; [right; right; reflexivity | constructor].
  - exact Hnn.
  - split; [apply Hinit | apply Hload].
Defined.

(** C10 as stated fails on a first value that ends in a digit and a line
    feed: the value is no symbol and has no digits at its end, yet the
    pattern finds the 7, [cell] is bound and the Timesheet is made. *)
Lemma XDTS_line_feed_first_is_read :
  (seven_line_feed =? "SYMBOL_NULL_CELL")%string = false /\
  tick_or_hyphen seven_line_feed = false /\
  digit_suffix seven_line_feed = EmptyString /\
  XDTS_init "cut.xdts" xdts_line_feed_first []
  = (Ok (mkTimesheet "cut.xdts" "cut.xdts->T" 24 [mkLayer "A" [mkFrame 0 7]]), []) /\
  load_xdts "cut.xdts" [xdts_line_feed_first] []
  = (Ok [mkTimesheet "cut.xdts" "cut.xdts->T" 24 [mkLayer "A" [mkFrame 0 7]]], []).
Proof. repeat split. Qed.

(** ** More on the XDTS reader: tables of symbols and numbers *)

Lemma XDTS_entry_numbered fe frames st :
  numbered (entry_value fe) ->
  XDTS_entry fe frames st
  = (Ok (frames ++ XDTS_raw_entry fe),
     mkLocals (match computed_cell (entry_value fe) with
               | Some c => Some c
               | None => cell_var st
               end)
              (stderr st)).
Proof.
  intros Hn. unfold XDTS_entry, XDTS_raw_entry, computed_cell.
  destruct (entry_value fe =? "SYMBOL_NULL_CELL")%string eqn:En; [reflexivity |].
  destruct (tick_or_hyphen (entry_value fe)) eqn:Et.
  { destruct st. unfold ret. now rewrite app_nil_r. }
  destruct Hn as [Hn | [Hn | (run & Hr & Hlen)]].
  - apply String.eqb_neq in En. contradiction.
  - apply tick_or_hyphen_true in Hn. congruence.
  - rewrite Hr, (re_num_search_py_int _ _ Hr).
    replace (int_max_str_digits <? _) with false by (symmetry; apply Z.ltb_ge; lia).
    reflexivity.
Qed.

Lemma XDTS_entries_numbered entries : forall frames st,
  Forall (fun fe => numbered (entry_value fe)) entries ->
  for_each XDTS_entry entries frames st
  = (Ok (frames ++ flat_map XDTS_raw_entry entries),
     mkLocals (last_computed (cell_var st) entries) (stderr st)).
Proof.
  induction entries as [| fe entries IH]; intros frames st H.
  - destruct st. simpl. unfold ret. now rewrite app_nil_r.
  - inversion_clear H as [| ? ? Hfe Hrest].
    cbn [for_each flat_map]. erewrite bind_Ok by (now apply XDTS_entry_numbered).
    rewrite (IH _ _ Hrest), <- app_assoc. reflexivity.
Qed.

Lemma XDTS_tracks_numbered names_ tracks_ : forall layer_names layers st,
  Forall2 (fun t nm => getitem names_ (trackNo t) = Ok nm) tracks_ layer_names ->
  Forall (fun t => Forall (fun fe => numbered (entry_value fe)) (track_frames t)) tracks_ ->
  for_each (XDTS_track names_) tracks_ layers st
  = (Ok (layers ++ map (fun p => mkLayer (snd p) (flat_map XDTS_raw_entry (track_frames (fst p))))
                       (combine tracks_ layer_names)),
     mkLocals (last_computed (cell_var st) (flat_map track_frames tracks_)) (stderr st)).
Proof.
  induction tracks_ as [| t tracks_ IH]; intros layer_names layers st Hlook Hnum.
  - destruct st. simpl. unfold ret. now rewrite app_nil_r.
  - inversion Hlook as [| ? nm ? nms Ht Hrest]; subst.
    inversion_clear Hnum as [| ? ? Hn Hnrest].
    cbn [for_each combine map flat_map fst snd].
    erewrite bind_Ok; cycle 1.
    { unfold XDTS_track. erewrite bind_Ok by (unfold lift; rewrite Ht; reflexivity).
      erewrite bind_Ok by (now apply XDTS_entries_numbered). reflexivity. }
    rewrite (IH nms _ _ Hrest Hnrest), <- app_assoc. cbn [cell_var stderr app].
    unfold last_computed. now rewrite fold_left_app.
Qed.

(** What the XDTS reader makes of a table whose first field has a header,
    with a name for every track, values that are all symbols or end in
    digits the pattern finds, no more than 4300 of them, and at least one
    entry left in every track:
    one layer per track of that field, in order, named by the track number,
    holding the normal form of the track's mapped entries.  Nothing is
    printed, and no value of one entry shows up in another. *)
Theorem XDTS_reads_table path timeTable field others names_ layer_names err :
  fields timeTable = Some (field :: others) ->
  header_names (fieldId field) (timeTableHeaders timeTable) = Some names_ ->
  Forall2 (fun t nm => getitem names_ (trackNo t) = Ok nm) (tracks field) layer_names ->
  Forall (fun t => Forall (fun fe => numbered (entry_value fe)) (track_frames t))
         (tracks field) ->
  Forall (fun t => flat_map XDTS_raw_entry (track_frames t) <> []) (tracks field) ->
  XDTS_init path timeTable err
  = (Ok (mkTimesheet path (XDTS_name path timeTable) (duration timeTable)
           (map (fun p => track_layer XDTS_raw_entry (fst p) (snd p))
                (combine (tracks field) layer_names))),
     err).
Proof.
  intros Hf Hnames Hlook Hnum Hne.
  assert (Hread : XDTS_read timeTable (mkLocals None err)
                  = (Ok (map (fun p => mkLayer (snd p)
                                         (flat_map XDTS_raw_entry (track_frames (fst p))))
                             (combine (tracks field) layer_names),
                         duration timeTable),
                     mkLocals (last_computed None (flat_map track_frames (tracks field))) err)).
  { unfold XDTS_read, table_fields. rewrite Hf.
    erewrite bind_Ok by reflexivity. erewrite bind_Ok by reflexivity.
    rewrite Hnames.
    erewrite bind_Ok by (apply XDTS_tracks_numbered; eassumption). reflexivity. }
  unfold XDTS_init.
  erewrite bind_Ok by (unfold call; rewrite Hread; reflexivity).
  cbn [fst snd stderr]. unfold lift, Timesheet_init.
  rewrite normalize_layers_nonempty.
  - cbn [rbind]. rewrite map_map. reflexivity.
  - apply Forall_forall. intros l Hin. apply in_map_iff in Hin.
    destruct Hin as (p & <- & Hin). apply combine_fst_In in Hin.
    rewrite Forall_forall in Hne. exact (Hne _ Hin).
Qed.

Lemma XDTS_reads_table_witness :
  XDTS_init "cut.xdts"
            (mkTable "T" 24
               (Some [mkField 0 [mkTrack 0 [mkEntry 0 "7"; mkEntry 2 "SYMBOL_HYPHEN";
                                            mkEntry 8 "cell_042"]]])
               [mkHeader 0 ["A"]])
            []
  = (Ok (mkTimesheet "cut.xdts"
           (XDTS_name "cut.xdts"
              (mkTable "T" 24
                 (Some [mkField 0 [mkTrack 0 [mkEntry 0 "7"; mkEntry 2 "SYMBOL_HYPHEN";
                                              mkEntry 8 "cell_042"]]])
                 [mkHeader 0 ["A"]]))
           24
           (map (fun p => track_layer XDTS_raw_entry (fst p) (snd p))
                (combine [mkTrack 0 [mkEntry 0 "7"; mkEntry 2 "SYMBOL_HYPHEN";
                                     mkEntry 8 "cell_042"]] ["A"]))),
     []).
Proof.
  apply (XDTS_reads_table "cut.xdts"
           (mkTable "T" 24
              (Some [mkField 0 [mkTrack 0 [mkEntry 0 "7"; mkEntry 2 "SYMBOL_HYPHEN";
                                           mkEntry 8 "cell_042"]]])
              [mkHeader 0 ["A"]])
           (mkField 0 [mkTrack 0 [mkEntry 0 "7"; mkEntry 2 "SYMBOL_HYPHEN";
                                  mkEntry 8 "cell_042"]])
           [] ["A"] ["A"] []).
  - reflexivity.
  - reflexivity.
  - repeat constructor.
  - constructor; [| constructor].
    constructor; [right; right; exists "7"; split; [reflexivity | discriminate] |].
    constructor; [right; left; right; right; reflexivity |].
    constructor; [right; right; exists "042"; split; [reflexivity | discriminate] |
                  constructor].
  - repeat constructor. discriminate.
Defined.

(** ** load *)

Lemma Timesheet_init_fields p n fc ls ts :
  Timesheet_init p n fc ls = Ok ts ->
  path ts = p /\ sheet_name ts = n /\ frame_count ts = fc.
Proof.
  unfold Timesheet_init. destruct (normalize_layers ls); cbn [rbind]; [| discriminate].
  intros [= <-]. repeat split.
Qed.

Lemma TDTS_init_fields p cut_ t err ts err' :
  TDTS_init p cut_ t err = (Ok ts, err') ->
  path ts = p /\ sheet_name ts = TDTS_name p cut_ t /\ frame_count ts = duration t.
Proof.
  unfold TDTS_init. intros H. inv_bind H.
  assert (Hd : snd a = duration t).
  { unfold TDTS_read in Hm. do 2 inv_bind Hm. injection Hm as <- _. reflexivity. }
  apply lift_inv_Ok in H. rewrite Hd in H. now apply Timesheet_init_fields in H.
Qed.

Lemma XDTS_init_fields p t err ts err' :
  XDTS_init p t err = (Ok ts, err') ->
  path ts = p /\ sheet_name ts = XDTS_name p t /\ frame_count ts = duration t.
Proof.
  unfold XDTS_init. intros H. inv_bind H.
  assert (Hd : snd a = duration t).
  { unfold call in Hm.
    destruct (XDTS_read t (mkLocals None err)) as [r st] eqn:E.
    injection Hm as -> _.
    unfold XDTS_read in E. do 3 inv_bind E. injection E as <- _. reflexivity. }
  apply lift_inv_Ok in H. rewrite Hd in H. now apply Timesheet_init_fields in H.
Qed.

(** What [load] returns for an XDTS document: one Timesheet per table, in
    the order of the tables, each with the file's path, the name made of the
    file name and the table's name, and the table's duration. *)
Theorem load_xdts_one_per_table file_path timeTables err dst err' :
  load_xdts file_path timeTables err = (Ok dst, err') ->
  Forall2 (fun ts t => path ts = file_path /\ sheet_name ts = XDTS_name file_path t /\
                       frame_count ts = duration t)
          dst timeTables.
Proof.
  unfold load_xdts.
  assert (G : forall acc err0,
             for_each (fun timeTable dst0 =>
                         xdts <- XDTS_init file_path timeTable ;; ret (dst0 ++ [xdts]))
                      timeTables acc err0 = (Ok dst, err') ->
             exists news,
               dst = acc ++ news /\
               Forall2 (fun ts t => path ts = file_path /\
                                    sheet_name ts = XDTS_name file_path t /\
                                    frame_count ts = duration t) news timeTables).
  { induction timeTables as [| t tables IH]; intros acc err0 H.
    - injection H as <- _. exists []. rewrite app_nil_r. split; constructor.
    - cbn [for_each] in H. inv_bind H. inv_bind Hm. injection Hm as <- <-.
      destruct (IH _ _ H) as (news & -> & F).
      exists (a0 :: news). rewrite <- app_assoc. split; [reflexivity |].
      constructor; [eapply XDTS_init_fields; eassumption | assumption]. }
  intros H. destruct (G [] err H) as (news & -> & F). exact F.
Qed.

Lemma load_xdts_one_per_table_witness :
  load_xdts "cut.xdts" [xdts_plain; xdts_plain] []
  = (Ok [mkTimesheet "cut.xdts" "cut.xdts->U" 24 [mkLayer "A" [mkFrame 0 1; mkFrame 3 2]];
         mkTimesheet "cut.xdts" "cut.xdts->U" 24 [mkLayer "A" [mkFrame 0 1; mkFrame 3 2]]],
     []) /\
  Forall2 (fun ts t => path ts = "cut.xdts" /\ sheet_name ts = XDTS_name "cut.xdts" t /\
                       frame_count ts = duration t)
          [mkTimesheet "cut.xdts" "cut.xdts->U" 24 [mkLayer "A" [mkFrame 0 1; mkFrame 3 2]];
           mkTimesheet "cut.xdts" "cut.xdts->U" 24 [mkLayer "A" [mkFrame 0 1; mkFrame 3 2]]]
          [xdts_plain; xdts_plain].
Proof.
  assert (H : load_xdts "cut.xdts" [xdts_plain; xdts_plain] []
              = (Ok [mkTimesheet "cut.xdts" "cut.xdts->U" 24
                                 [mkLayer "A" [mkFrame 0 1; mkFrame 3 2]];
                     mkTimesheet "cut.xdts" "cut.xdts->U" 24
                                 [mkLayer "A" [mkFrame 0 1; mkFrame 3 2]]], []))
    by (vm_compute; reflexivity).
  split; [exact H |].
  exact (load_xdts_one_per_table _ _ _ _ _ H).
Defined.

(** What [load] returns for a TDTS document: one Timesheet per table that
    has the key ["fields"], in reading order, sheet by sheet; a table
    without the key gives nothing.  Each Timesheet has the file's path, the
    name made of the file name, the cut of its sheet and the table's name,
    and the table's duration. *)
Theorem load_tdts_one_per_table_with_fields file_path timeSheets err dst err' :
  load_tdts file_path timeSheets err = (Ok dst, err') ->
  Forall2 (fun ts p => path ts = file_path /\
                       sheet_name ts = TDTS_name file_path (fst p) (snd p) /\
                       frame_count ts = duration (snd p))
          dst (tables_with_fields timeSheets).
Proof.
  unfold load_tdts.
  set (P := fun ts (p : string * TimeTable) =>
              path ts = file_path /\
              sheet_name ts = TDTS_name file_path (fst p) (snd p) /\
              frame_count ts = duration (snd p)).
  assert (Inner : forall cut_ tables acc err0 dst0 err1,
             for_each (fun timeTable dst1 =>
                         match fields timeTable with
                         | Some _ =>
                             tdts <- TDTS_init file_path cut_ timeTable ;;
                             ret (dst1 ++ [tdts])
                         | None => ret dst1
                         end) tables acc err0 = (Ok dst0, err1) ->
             exists news,
               dst0 = acc ++ news /\
               Forall2 P news
                 (map (fun timeTable => (cut_, timeTable))
                      (filter (fun timeTable => match fields timeTable with
                                                | Some _ => true
                                                | None => false
                                                end) tables))).
  { intros cut_ tables. induction tables as [| t tables IH]; intros acc err0 dst0 err1 H.
    - injection H as <- _. exists []. rewrite app_nil_r. split; constructor.
    - cbn [for_each filter] in H |- *. inv_bind H.
      destruct (fields t) eqn:Ef.
      + inv_bind Hm. injection Hm as <- <-.
        destruct (IH _ _ _ _ H) as (news & -> & F).
        exists (a0 :: news). rewrite <- app_assoc. split; [reflexivity |].
        cbn [map]. constructor; [| assumption].
        unfold P. cbn [fst snd]. eapply TDTS_init_fields; eassumption.
      + injection Hm as <- <-. exact (IH _ _ _ _ H). }
  assert (Outer : forall sheets acc err0,
             for_each (fun timeSheet dst0 =>
                         for_each (fun timeTable dst1 =>
                                     match fields timeTable with
                                     | Some _ =>
                                         tdts <- TDTS_init file_path (cut timeSheet) timeTable ;;
                                         ret (dst1 ++ [tdts])
                                     | None => ret dst1
                                     end) (timeTables timeSheet) dst0)
                      sheets acc err0 = (Ok dst, err') ->
             exists news, dst = acc ++ news /\ Forall2 P news (tables_with_fields sheets)).
  { induction sheets as [| sh sheets IH]; intros acc err0 H.
    - injection H as <- _. exists []. rewrite app_nil_r. split; constructor.
    - cbn [for_each] in H. inv_bind H.
      destruct (Inner _ _ _ _ _ _ Hm) as (news1 & -> & F1).
      destruct (IH _ _ H) as (news2 & -> & F2).
      exists (news1 ++ news2). rewrite <- app_assoc. split; [reflexivity |].
      cbn [tables_with_fields flat_map]. now apply Forall2_app. }
  intros H. destruct (Outer _ [] err H) as (news & -> & F). exact F.
Qed.

Lemma load_tdts_one_per_table_with_fields_witness :
  load_tdts "cut.tdts" tdts_two_sheets []
  = (Ok [mkTimesheet "cut.tdts" "cut.tdts->c001->U" 24 [mkLayer "A" [mkFrame 0 1; mkFrame 3 2]];
         mkTimesheet "cut.tdts" "cut.tdts->c002->U" 24 [mkLayer "A" [mkFrame 0 1; mkFrame 3 2]]],
     []) /\
  Forall2 (fun ts p => path ts = "cut.tdts" /\
                       sheet_name ts = TDTS_name "cut.tdts" (fst p) (snd p) /\
                       frame_count ts = duration (snd p))
          [mkTimesheet "cut.tdts" "cut.tdts->c001->U" 24 [mkLayer "A" [mkFrame 0 1; mkFrame 3 2]];
           mkTimesheet "cut.tdts" "cut.tdts->c002->U" 24 [mkLayer "A" [mkFrame 0 1; mkFrame 3 2]]]
          (tables_with_fields tdts_two_sheets).
Proof.
  assert (H : load_tdts "cut.tdts" tdts_two_sheets []
              = (Ok [mkTimesheet "cut.tdts" "cut.tdts->c001->U" 24
                                 [mkLayer "A" [mkFrame 0 1; mkFrame 3 2]];
                     mkTimesheet "cut.tdts" "cut.tdts->c002->U" 24
                                 [mkLayer "A" [mkFrame 0 1; mkFrame 3 2]]], []))
    by (vm_compute; reflexivity).
  split; [exact H |].
  exact (load_tdts_one_per_table_with_fields _ _ _ _ _ H).
Defined.

(** *** The extension *)

Lemma after_last_slash_none name : forall cur,
  has_char 47 name = false -> after_last_slash name cur = cur.
Proof.
  induction name as [| c name IH]; intros cur; simpl; [reflexivity |].
  destruct (code c =? 47)%N; [discriminate |]. simpl. apply IH.
Qed.

Lemma basename_join dir name :
  has_char 47 name = false ->
  basename (dir ++ String (ascii_of_N 47) name) = name.
Proof.
  intros Hn. unfold basename.
  generalize (dir ++ String (ascii_of_N 47) name)%string at 2. 
  induction dir as [| c dir IH]; intros cur.
  - cbn. now apply after_last_slash_none.
  - cbn [append after_last_slash]. destruct (code c =? 47)%N; apply IH.
Qed.

Lemma from_last_dot_none e : has_char 46 e = false -> from_last_dot e = None.
Proof.
  induction e as [| c e IH]; simpl; [reflexivity |].
  destruct (code c =? 46)%N; [discriminate |]. simpl. intros H. now rewrite IH.
Qed.

Lemma from_last_dot_append stem e :
  has_char 46 e = false ->
  from_last_dot (stem ++ String (ascii_of_N 46) e) = Some (String (ascii_of_N 46) e).
Proof.
  intros He. induction stem as [| c stem IH].
  - cbn [append from_last_dot]. now rewrite (from_last_dot_none e He).
  - cbn [append from_last_dot]. now rewrite IH.
Qed.

Lemma length_append a b : String.length (a ++ b) = (String.length a + String.length b)%nat.
Proof. induction a as [| c a IH]; simpl; [reflexivity | now rewrite IH]. Qed.

(** The suffix of [stem.e]. *)
Lemma suffix_append stem e :
  stem <> EmptyString -> e <> EmptyString -> has_char 46 e = false ->
  suffix (stem ++ String (ascii_of_N 46) e) = String (ascii_of_N 46) e.
Proof.
  intros Hs He Hd. unfold suffix. rewrite (from_last_dot_append stem e Hd).
  rewrite length_append. cbn [String.length].
  destruct stem as [| c stem]; [congruence |].
  destruct e as [| d e]; [congruence |].
  cbn [String.length].
  replace (1 <? S (S (String.length e)))%nat with true
    by (symmetry; apply Nat.ltb_lt; lia).
  replace (S (S (String.length e)) <? S (String.length stem) + S (S (String.length e)))%nat
    with true by (symmetry; apply Nat.ltb_lt; lia).
  reflexivity.
Qed.

Section Load_proofs.

Variable shift_jis : list byte -> option string.
Variable json_loads : string -> result Document.

(** [load] goes by the extension, whatever its case: for a path
    [dir/stem.e], the STS reader is run on the bytes when [e] is "sts" in any
    mix of cases, and when [e] in lower case is none of "sts", "tdts" and
    "xdts" the exception TimeseetFileTypeError with the path is raised and
    the file is not looked at.  For the two JSON formats the first line of
    the file is not part of what is parsed. *)
Theorem load_by_extension dir stem e file err :
  stem <> EmptyString -> has_char 47 stem = false ->
  e <> EmptyString -> has_char 47 e = false -> has_char 46 e = false ->
  let file_path := (dir ++ String (ascii_of_N 47) (stem ++ String (ascii_of_N 46) e))%string in
  (lower e = "sts" ->
   load shift_jis json_loads file_path file err
   = (load_sts shift_jis file_path (file_bytes file), err)) /\
  (lower e <> "sts" -> lower e <> "tdts" -> lower e <> "xdts" ->
   load shift_jis json_loads file_path file err
   = (Raise (Exception ("TimeseetFileTypeError:" ++ file_path)%string), err)) /\
  (lower e = "tdts" \/ lower e = "xdts" ->
   forall bytes' first first' lines,
     load shift_jis json_loads file_path (mkFile (file_bytes file) (Ok (first :: lines))) err
     = load shift_jis json_loads file_path (mkFile bytes' (Ok (first' :: lines))) err).
Proof.
  intros Hs Hss He Hes Hed file_path.
  assert (Hext : lower (suffix (basename file_path)) = String (ascii_of_N 46) (lower e)).
  { unfold file_path. rewrite basename_join.
    - rewrite suffix_append by assumption. reflexivity.
    - clear - Hss Hes. induction stem as [| c s IH]; simpl in *.
      + exact Hes.
      + destruct (code c =? 47)%N; [discriminate |]. simpl in *. now apply IH. }
  unfold load. fold file_path. rewrite Hext.
  split; [| split].
  - intros ->. reflexivity.
  - intros H1 H2 H3.
    assert (N : forall x, lower e <> x ->
                          (String (ascii_of_N 46) (lower e) =? String (ascii_of_N 46) x)%string
                          = false).
    { intros x Hx. apply String.eqb_neq. intros [= E]. contradiction. }
    change ".sts" with (String (ascii_of_N 46) "sts").
    change ".tdts" with (String (ascii_of_N 46) "tdts").
    change ".xdts" with (String (ascii_of_N 46) "xdts").
    now rewrite !N.
  - intros [-> | ->]; intros; reflexivity.
Qed.

End Load_proofs.

Lemma load_by_extension_witness :
  load shift_jis_ascii (fun _ => Raise (ValueError "json")) "sheets/cut.STS"
       (mkFile (sts_sample x01 [x41]) (Raise (UnicodeDecodeError "utf-8"))) []
  = (load_sts shift_jis_ascii "sheets/cut.STS" (sts_sample x01 [x41]), []) /\
  load shift_jis_ascii (fun _ => Raise (ValueError "json")) "sheets/cut.zip"
       (mkFile [] (Ok [])) []
  = (Raise (Exception "TimeseetFileTypeError:sheets/cut.zip"), []).
Proof.
  split.
  - apply (proj1 (load_by_extension shift_jis_ascii (fun _ => Raise (ValueError "json"))
                    "sheets" "cut" "STS"
                    (mkFile (sts_sample x01 [x41]) (Raise (UnicodeDecodeError "utf-8"))) []
                    ltac:(discriminate) eq_refl ltac:(discriminate) eq_refl eq_refl)).
    reflexivity.
  - apply (proj1 (proj2 (load_by_extension shift_jis_ascii (fun _ => Raise (ValueError "json"))
                    "sheets" "cut" "zip" (mkFile [] (Ok [])) []
                    ltac:(discriminate) eq_refl ltac:(discriminate) eq_refl eq_refl)));
      discriminate.
Defined.
